(** * Paper Trader (src/App.js): a shallow embedding and its properties

    The application keeps a mock portfolio (cash, holdings, trade history)
    against synthetically drifting prices.  This file embeds the pure parts of
    [src/App.js] -- [clamp], [initialState], [loadState], [driftPrice],
    [priceMapFrom], [pnlForSymbol], the [equity] aggregation, and the state
    updates of [doTrade], [addSymbolToWatch], [removeSymbol], [resetAll] and
    the price tick -- and proves the properties the specification states
    about them.

    Modelling conventions.
    - A JavaScript number is a [num]: either [NaN] or a finite value, held as
      an exact rational ([Qc], canonical rationals, so that equality of
      numbers is Leibniz equality).  IEEE rounding, the infinities and the
      sign of zero are not modelled; [NaN] is, because [parseInt] produces it
      and every comparison and arithmetic operation of the program reacts to
      it.  The program computes in doubles, so a sum or product written here
      stands for the program's rounded one, and the theorems state results
      with the program's own expressions, operation by operation.
    - [Math.random()] and [Date.now()] are inputs: every function that calls
      them takes the values drawn as arguments.
    - A JavaScript object used as a dictionary ([holdings], the price map, a
      parsed JSON object) is a [gmap] keyed by strings: its own properties.
      A read [o[k]] of the program that finds no own property goes on to
      [Object.prototype]; the members found there ([inheritedNames]) are
      not modelled, and neither is the assignment to [__proto__].  The
      definitions that read or write [holdings] or the price map under a
      symbol are therefore the program's for the symbols with
      [inheritedName sym = false].  Every symbol of a reachable watchlist is
      upper case, and no inherited name is.
    - Strings are byte strings; [trim] and [toUpperCase] are the program's on
      ASCII text ([isAscii]).
    - [Alert.alert] is an output: the state updates return the notices they
      raise next to the new state. *)

From Stdlib Require Import QArith Qcanon Qround Lqa ZArith String Ascii.
From stdpp Require Import base numbers gmap strings list fin_maps pretty.

Local Open Scope Qc_scope.

(** ** JavaScript numbers *)

Inductive num : Type :=
  | NaN : num
  | Fin (x : Qc) : num.

#[global] Instance num_eq_dec : EqDecision num.
Proof. solve_decision. Defined.

(** A decimal literal [n/d]. *)
Definition dec (n : Z) (d : positive) : Qc := Q2Qc (n # d).

(** An integer literal. *)
Definition int (z : Z) : num := Fin (Qc_of_Z z).

(** [ToBoolean] on a number: [0] and [NaN] are falsy. *)
Definition truthy (n : num) : bool :=
  match n with
  | NaN => false
  | Fin x => bool_decide (x ≠ 0)
  end.

Definition nadd (a b : num) : num :=
  match a, b with
  | Fin x, Fin y => Fin (x + y)
  | _, _ => NaN
  end.

Definition nsub (a b : num) : num :=
  match a, b with
  | Fin x, Fin y => Fin (x - y)
  | _, _ => NaN
  end.

Definition nmul (a b : num) : num :=
  match a, b with
  | Fin x, Fin y => Fin (x * y)
  | _, _ => NaN
  end.

(** Division.  Every division of the program is guarded by the truthiness of
    its divisor ([newQty ? ... : price], [h.avg ? ... : 0]), so the divisor is
    never [0] where the program divides; the infinities JavaScript returns
    there are outside this model and the case is given [NaN]. *)
Definition ndiv (a b : num) : num :=
  match a, b with
  | Fin x, Fin y => if decide (y = 0) then NaN else Fin (x / y)
  | _, _ => NaN
  end.

(** [a > b]: false as soon as one side is [NaN]. *)
Definition ngt (a b : num) : bool :=
  match a, b with
  | Fin x, Fin y => bool_decide (y < x)
  | _, _ => false
  end.

(** [a < b]: false as soon as one side is [NaN]. *)
Definition nlt (a b : num) : bool :=
  match a, b with
  | Fin x, Fin y => bool_decide (x < y)
  | _, _ => false
  end.

(** [a >= b]: false as soon as one side is [NaN]. *)
Definition nge (a b : num) : bool :=
  match a, b with
  | Fin x, Fin y => bool_decide (y ≤ x)
  | _, _ => false
  end.

(** [a === b] on numbers: [NaN] is equal to nothing, itself included. *)
Definition nstrict_eq (a b : num) : bool :=
  match a, b with
  | Fin x, Fin y => bool_decide (x = y)
  | _, _ => false
  end.

(** [Math.max(a, b)]: [NaN] when an argument is. *)
Definition Math_max (a b : num) : num :=
  match a, b with
  | Fin x, Fin y => Fin (if decide (x ≤ y) then y else x)
  | _, _ => NaN
  end.

(** [Math.min(a, b)]: [NaN] when an argument is. *)
Definition Math_min (a b : num) : num :=
  match a, b with
  | Fin x, Fin y => Fin (if decide (x ≤ y) then x else y)
  | _, _ => NaN
  end.

(** [Math.floor(a)]. *)
Definition Math_floor (a : num) : num :=
  match a with
  | NaN => NaN
  | Fin x => Fin (Qc_of_Z (Qfloor x))
  end.

(** [const clamp = (n, lo, hi) => Math.min(Math.max(n, lo), hi)]. *)
Definition clamp (n lo hi : num) : num := Math_min (Math_max n lo) hi.

(** The same functions on finite values, to state bounds with. *)
Definition qmax (x y : Qc) : Qc := if decide (x ≤ y) then y else x.
Definition qmin (x y : Qc) : Qc := if decide (x ≤ y) then x else y.
Definition qclamp (n lo hi : Qc) : Qc := qmin (qmax n lo) hi.

(** ** Strings: [parseInt], [trim], [toUpperCase]

    Strings are sequences of 8-bit characters; white space and letters
    outside ASCII are not modelled. *)

(** A text of ASCII characters only.  On such a text [trim] and
    [toUpperCase] below are the JavaScript methods. *)
Definition isAscii (s : string) : bool :=
  forallb (λ c, bool_decide (nat_of_ascii c < 128)%nat) (list_ascii_of_string s).

(** Value of a decimal digit. *)
Definition digit_val (c : ascii) : option Z :=
  Z.of_nat <$> Ascii.is_nat c.

(** The value of the longest prefix of decimal digits of [s], starting from
    the value [acc] read so far ([None]: no digit read yet). *)
Fixpoint digits_prefix (s : string) (acc : option Z) : option Z :=
  match s with
  | EmptyString => acc
  | String c r =>
      match digit_val c with
      | Some d => digits_prefix r (Some (10 * default 0%Z acc + d)%Z)
      | None => acc
      end
  end.

(** Leading white space removed. *)
Fixpoint skip_ws (s : string) : string :=
  match s with
  | EmptyString => EmptyString
  | String c r => if Ascii.is_space c then skip_ws r else s
  end.

(** [parseInt(s, 10)]: leading white space is skipped, an optional sign is
    read, then the longest prefix of decimal digits; [NaN] when there is no
    digit.  With an explicit radix of 10 no [0x] prefix is recognised.  The
    result is the integer the digits denote; the program's is the nearest
    double, which is that integer up to 2^53. *)
Definition parseInt10 (s : string) : num :=
  let s1 := skip_ws s in
  let '(sign, s2) :=
    match s1 with
    | String "-"%char r => ((-1)%Z, r)
    | String "+"%char r => (1%Z, r)
    | _ => (1%Z, s1)
    end in
  match digits_prefix s2 None with
  | None => NaN
  | Some v => int (sign * v)
  end.

(** [s.trim()]. *)
Definition trim (s : string) : string :=
  String.rev (skip_ws (String.rev (skip_ws s))).

Definition upper_char (c : ascii) : ascii :=
  let n := nat_of_ascii c in
  if (97 <=? n)%nat && (n <=? 122)%nat then ascii_of_nat (n - 32) else c.

(** [s.toUpperCase()]. *)
Fixpoint toUpperCase (s : string) : string :=
  match s with
  | EmptyString => EmptyString
  | String c r => String (upper_char c) (toUpperCase r)
  end.

(** ** Data model *)

(** [holdings]: sym -> { qty, avg }. *)
Record Position : Type := { qty : num; avg : num }.

(** A watchlist entry [{ symbol, price }]. *)
Record WatchItem : Type := { symbol : string; price : num }.

Inductive Side : Type := BUY | SELL.

(** A history entry [{id, time, side, symbol, qty, price}].  The source's id
    is [String(n)] for the number [n = Date.now() + Math.random()]; [String]
    maps equal numbers to equal strings and different numbers to different
    strings, and the entry keeps [n] itself in [t_id].  The program's sum is
    a double: ids that are equal here are equal in the program, and ids that
    differ here by less than the spacing of the doubles at [n] are equal in
    the program as well. *)
Record TradeRecord : Type := {
  t_id : num;
  t_time : Z;
  t_side : Side;
  t_symbol : string;
  t_qty : num;
  t_price : num
}.

Record Settings : Type := { refreshSecs : num }.

Record State : Type := {
  cash : num;
  watchlist : list WatchItem;
  holdings : gmap string Position;
  history : list TradeRecord;
  settings : Settings
}.

(** The notices raised with [Alert.alert]. *)
Inductive Notice : Type :=
  | NotEnoughCash   (* Alert.alert('Not enough cash') *)
  | NotEnoughShares (* Alert.alert('Not enough shares') *).

#[global] Instance Position_eq_dec : EqDecision Position.
Proof. solve_decision. Defined.
#[global] Instance WatchItem_eq_dec : EqDecision WatchItem.
Proof. solve_decision. Defined.
#[global] Instance Side_eq_dec : EqDecision Side.
Proof. solve_decision. Defined.
#[global] Instance TradeRecord_eq_dec : EqDecision TradeRecord.
Proof. solve_decision. Defined.
#[global] Instance Notice_eq_dec : EqDecision Notice.
Proof. solve_decision. Defined.

Definition DEFAULT_SYMBOLS : list string :=
  ["AAPL"; "MSFT"; "TSLA"; "GOOGL"; "AMZN"; "NVDA";
   "RELIANCE.NS"; "TCS.NS"; "HDFCBANK.NS"]%string.

(** A fresh watchlist price, [100 + Math.random() * 200], from the draw [r]:
    at least 100 and, for [r < 1], below 300; the program's rounded sum can
    be 300 itself. *)
Definition seedPrice (r : Qc) : num :=
  nadd (int 100) (nmul (Fin r) (int 200)).

(** [initialState]; [seed i] is the value [Math.random()] returned for the
    [i]-th default symbol when the module was loaded. *)
Definition initialState (seed : nat → Qc) : State := {|
  cash := int 10000;
  watchlist :=
    imap (λ i s, {| symbol := s; price := seedPrice (seed i) |}) DEFAULT_SYMBOLS;
  holdings := ∅;
  history := [];
  settings := {| refreshSecs := int 8 |}
|}.

(** ** Plain objects as dictionaries *)

(** The property names of [Object.prototype] (ECMAScript, Annex B
    included).  [holdings] and the price map are plain objects: a read
    [o[k]] with one of these names and no own property [k] yields the
    inherited member, a function or the prototype itself, and not
    [undefined]; for every other name the read sees the own properties
    only. *)
Definition inheritedNames : list string :=
  ["constructor"; "hasOwnProperty"; "isPrototypeOf"; "propertyIsEnumerable";
   "toLocaleString"; "toString"; "valueOf"; "__proto__";
   "__defineGetter__"; "__defineSetter__";
   "__lookupGetter__"; "__lookupSetter__"]%string.

Definition inheritedName (s : string) : bool :=
  bool_decide (s ∈ inheritedNames).

(** ** Price simulation *)

(** The default volatility [v = 0.015]. *)
Definition default_volatility : num := Fin (dec 15 1000).

(** [driftPrice(p, v)]; [r] is the value [Math.random()] returns. *)
Definition driftPrice (p v : num) (r : Qc) : num :=
  let change := nmul (nsub (nmul (Fin r) (int 2)) (int 1)) v in
  let np := nmul p (nadd (int 1) change) in
  clamp np (Math_max (int 1) (nmul p (Fin (dec 85 100)))) (nmul p (Fin (dec 115 100))).

(** [priceMapFrom(watchlist)]: a later entry of a symbol overwrites an
    earlier one.  (Own properties; the program's [m[w.symbol] = w.price]
    stores none for the symbol [__proto__].) *)
Definition priceMapFrom (wl : list WatchItem) : gmap string num :=
  foldl (λ m w, <[symbol w := price w]> m) ∅ wl.

(** [priceMap[sym] ?? 0], for a symbol that has an own price or is no
    inherited name. *)
Definition lastPrice (priceMap : gmap string num) (sym : string) : num :=
  default (int 0) (priceMap !! sym).






(** ** Trading *)

(** What one trade reads from its environment: the two [Date.now()] calls and
    the [Math.random()] call of the history entry. *)
Record TradeEnv : Type := { now_id : Z; rnd_id : Qc; now_time : Z }.

(** The number behind the id of a trade, [Date.now() + Math.random()]. *)
Definition tradeId (env : TradeEnv) : num :=
  nadd (int (now_id env)) (Fin (rnd_id env)).

(** The history entry of a trade:
    [{ id: String(Date.now() + Math.random()), time: Date.now(), side,
       symbol, qty: q, price }]. *)
Definition tradeRecord (side : Side) (sym : string) (q p : num)
    (env : TradeEnv) : TradeRecord := {|
  t_id := tradeId env;
  t_time := now_time env;
  t_side := side;
  t_symbol := sym;
  t_qty := q;
  t_price := p
|}.

(** [holdings[symbol] || { qty: 0, avg: 0 }], for a symbol that is held or is
    no inherited name. *)
Definition positionOrDefault (hs : gmap string Position) (sym : string) : Position :=
  default {| qty := int 0; avg := int 0 |} (hs !! sym).

(** The weighted average of a buy:
    [newQty ? (h.qty * h.avg + q * price) / newQty : price]. *)
Definition newAvgOf (h : Position) (q p newQty : num) : num :=
  if truthy newQty
  then ndiv (nadd (nmul (qty h) (avg h)) (nmul q p)) newQty
  else p.

(** The state update [doTrade] passes to [setState], for the quantity [q] and
    the price [p] it has read; the result pairs the next state with the
    notices raised.  A rejected trade returns [prev] itself.  The symbol is
    one that is held or is no inherited name: for an inherited name that is
    not held, [holdings[symbol]] is a function in the program, [!h] is false
    and so is [h.qty < q], and the program carries the sell out. *)
Definition tradeReducer (side : Side) (sym : string) (q p : num)
    (env : TradeEnv) (prev : State) : State * list Notice :=
  let commit (hs : gmap string Position) (c : num) :=
    ({| cash := c;
        watchlist := watchlist prev;
        holdings := hs;
        history := tradeRecord side sym q p env :: history prev;
        settings := settings prev |}, []) in
  match side with
  | BUY =>
      let cost := nmul q p in
      if ngt cost (cash prev) then (prev, [NotEnoughCash])
      else
        let h := positionOrDefault (holdings prev) sym in
        let newQty := nadd (qty h) q in
        let newAvg := newAvgOf h q p newQty in
        commit (<[sym := {| qty := newQty; avg := newAvg |}]> (holdings prev))
               (nsub (cash prev) cost)
  | SELL =>
      match holdings prev !! sym with
      | None => (prev, [NotEnoughShares])
      | Some h =>
          if nlt (qty h) q then (prev, [NotEnoughShares])
          else
            let remaining := nsub (qty h) q in
            commit (if nstrict_eq remaining (int 0)
                    then delete sym (holdings prev)
                    else <[sym := {| qty := remaining; avg := avg h |}]> (holdings prev))
                   (nadd (cash prev) (nmul q p))
      end
  end.

(** The quantity [doTrade] reads from the quantity field:
    [Math.max(1, Math.floor(parseInt(qty || '1', 10)))]. *)
Definition tradeQty (qtyText : string) : num :=
  Math_max (int 1)
    (Math_floor (parseInt10 (if decide (qtyText = ""%string) then "1"%string else qtyText))).

(** [doTrade(side)] with the symbol and quantity fields holding [sym] and
    [qtyText]: nothing happens when the symbol has no price or a falsy one.
    The symbol is one that has an own price or is no inherited name: for an
    inherited name the program's [priceMap[symbol] ?? 0] is a function,
    which is truthy, and the program trades at it. *)
Definition doTrade (side : Side) (sym qtyText : string) (env : TradeEnv)
    (st : State) : State * list Notice :=
  let q := tradeQty qtyText in
  let p := lastPrice (priceMapFrom (watchlist st)) sym in
  if truthy p then tradeReducer side sym q p env st else (st, []).

(** ** Watchlist edits, reset and the price tick *)

Definition with_watchlist (st : State) (wl : list WatchItem) : State := {|
  cash := cash st;
  watchlist := wl;
  holdings := holdings st;
  history := history st;
  settings := settings st
|}.

(** [addSymbolToWatch()] with the field holding [addSym]; [r] is the draw of
    the new entry's price. *)
Definition addSymbolToWatch (addSym : string) (r : Qc) (st : State) : State :=
  let s := toUpperCase (trim addSym) in
  if decide (s = ""%string) then st
  else if existsb (λ w, bool_decide (symbol w = s)) (watchlist st) then st
  else with_watchlist st ({| symbol := s; price := seedPrice r |} :: watchlist st).

(** [removeSymbol(sym)]. *)
Definition removeSymbol (sym : string) (st : State) : State :=
  with_watchlist st (filter (λ w, symbol w ≠ sym) (watchlist st)).

(** [resetAll()]: the state is replaced by [initialState] when the user
    confirms, and kept otherwise. *)
Definition resetAll (seed : nat → Qc) (confirmed : bool) (st : State) : State :=
  if confirmed then initialState seed else st.

(** The price tick: every watchlist price drifts with the default volatility;
    [draws i] is the draw for the [i]-th entry. *)
Definition tick (draws : nat → Qc) (st : State) : State :=
  with_watchlist st
    (imap (λ i w, {| symbol := symbol w;
                     price := driftPrice (price w) default_volatility (draws i) |})
          (watchlist st)).

(** The operations of the application on its state. *)
Inductive Op : Type :=
  | OpTrade (side : Side) (sym qtyText : string) (env : TradeEnv)
  | OpTick (draws : nat → Qc)
  | OpAddSymbol (addSym : string) (r : Qc)
  | OpRemoveSymbol (sym : string)
  | OpResetAll (confirmed : bool).

Definition applyOp (seed : nat → Qc) (st : State) (op : Op) : State :=
  match op with
  | OpTrade side sym qtyText env => (doTrade side sym qtyText env st).1
  | OpTick draws => tick draws st
  | OpAddSymbol addSym r => addSymbolToWatch addSym r st
  | OpRemoveSymbol sym => removeSymbol sym st
  | OpResetAll confirmed => resetAll seed confirmed st
  end.

(** The state after a sequence of operations from the initial state. *)
Definition run (seed : nat → Qc) (ops : list Op) : State :=
  foldl (applyOp seed) (initialState seed) ops.

(** ** Persistence: [loadState] *)

(** A JSON value, as [JSON.parse] returns it. *)
#[warnings="-register-all"]
Inductive json : Type :=
  | JNull
  | JBool (b : bool)
  | JNum (n : num)
  | JStr (s : string)
  | JArr (l : list json)
  | JObj (kvs : list (string * json)).

(** A JavaScript object: its own enumerable properties. *)
Abbreviation obj := (gmap string json).

(** The properties an object spread [{...v}] copies from [v]: the members of
    an object (the last one of a repeated key), the elements of an array and
    the characters of a string under their indices, nothing otherwise. *)
Definition ownProps (v : json) : obj :=
  match v with
  | JObj kvs => list_to_map (reverse kvs)
  | JArr l => list_to_map (imap (λ i x, (pretty i, x)) l)
  | JStr s =>
      list_to_map (imap (λ i c, (pretty i, JStr (String c EmptyString)))
                        (list_ascii_of_string s))
  | JNull | JBool _ | JNum _ => ∅
  end.

(** [{ ...a, ...b }]: the properties of [b] over those of [a]. *)
Definition spread (a b : obj) : obj := b ∪ a.

Definition json_of_watch (w : WatchItem) : json :=
  JObj [("symbol"%string, JStr (symbol w)); ("price"%string, JNum (price w))].

(** [initialState] as the JavaScript object it is. *)
Definition initialStateObj (seed : nat → Qc) : obj :=
  let s0 := initialState seed in
  list_to_map
    [("cash"%string, JNum (cash s0));
     ("watchlist"%string, JArr (json_of_watch <$> watchlist s0));
     ("holdings"%string, JObj []);
     ("history"%string, JArr []);
     ("settings"%string,
       JObj [("refreshSecs"%string, JNum (refreshSecs (settings s0)))])].

(** What [await AsyncStorage.getItem(STORAGE_KEY)] does: the promise is
    rejected, or resolves to the stored text or to [null]. *)
Inductive GetItem : Type :=
  | Rejected
  | Resolved (raw : option string).

(** Member access [v.k] on a JSON value. *)
Definition member (k : string) (v : json) : option json :=
  ownProps v !! k.

Section load.

(** [JSON.parse]: [None] when it throws. *)
Variable JSON_parse : string → option json.

(** [loadState()]: every fault inside the [try] block returns
    [initialState]. *)
Definition loadState (seed : nat → Qc) (stored : GetItem) : obj :=
  match stored with
  | Rejected => initialStateObj seed
  | Resolved None => initialStateObj seed
  | Resolved (Some raw) =>
      if decide (raw = ""%string) then initialStateObj seed
      else match JSON_parse raw with
           | None => initialStateObj seed
           | Some parsed => spread (initialStateObj seed) (ownProps parsed)
           end
  end.

End load.

(** ** Invariants and well-formed inputs *)

(** A value [Math.random()] can return. *)
Definition isDraw (r : Qc) : Prop := 0 ≤ r < 1.

(** The cash is a number and not negative. *)
Definition cashOk (st : State) : Prop := ∃ c, cash st = Fin c ∧ 0 ≤ c.

(** A watchlist price that is a number and at least 1. *)
Definition priceOk (w : WatchItem) : Prop := ∃ p, price w = Fin p ∧ 1 ≤ p.

(** A position as the data model has it: a positive integer quantity and a
    positive average cost. *)
Definition positionOk (h : Position) : Prop :=
  ∃ (z : Z) (a : Qc), qty h = int z ∧ (1 ≤ z)%Z ∧ avg h = Fin a ∧ 0 < a.

(** A history entry whose quantity is a positive integer. *)
Definition recordOk (t : TradeRecord) : Prop :=
  ∃ z : Z, t_qty t = int z ∧ (1 ≤ z)%Z.

(** The invariant of the states reached with plain operations. *)
Record Inv (st : State) : Prop := {
  inv_cash : cashOk st;
  inv_prices : Forall priceOk (watchlist st);
  inv_positions : map_Forall (λ _, positionOk) (holdings st);
  inv_history : Forall recordOk (history st)
}.




(** ** The price timer *)

(** The period of the price timer in milliseconds,
    [(state.settings.refreshSecs || 8) * 1000]. *)
Definition tickIntervalMs (st : State) : num :=
  nmul (if truthy (refreshSecs (settings st))
        then refreshSecs (settings st)
        else int 8)
       (int 1000).

(** ** Further predicates *)

(** A symbol as [addSymbolToWatch] stores it: upper case and not blank. *)
Definition symbolOk (s : string) : Prop := toUpperCase s = s ∧ s ≠ ""%string.

(** A watchlist entry after one tick, next to the entry before: the same
    symbol, and a price that is at least 1 and within 15% of the old one. *)
Definition drifted (w w' : WatchItem) : Prop :=
  symbol w' = symbol w ∧
  ∃ p x, price w = Fin p ∧ price w' = Fin x ∧
         p * dec 85 100 ≤ x ≤ p * dec 115 100 ∧ 1 ≤ x.

(** The top-level keys of the state object. *)
Definition stateKeys : list string :=
  ["cash"; "watchlist"; "holdings"; "history"; "settings"]%string.

(** A confirmed reset. *)
Definition isReset (op : Op) : bool :=
  match op with
  | OpResetAll true => true
  | _ => false
  end.

(** The watchlist invariant: no repeated symbol, and every symbol upper case
    and not blank. *)
Definition watchlistOk (st : State) : Prop :=
  NoDup (symbol <$> watchlist st) ∧ Forall symbolOk (symbol <$> watchlist st).

(** A JSON value without properties of its own: [null], a boolean, a
    number. *)
Definition isPrimitive (v : json) : bool :=
  match v with
  | JNull | JBool _ | JNum _ => true
  | JStr _ | JArr _ | JObj _ => false
  end.

(** Whether a text starts with a decimal digit. *)
Definition startsWithDigit (s : string) : bool :=
  match s with
  | String c _ => bool_decide (is_Some (digit_val c))
  | EmptyString => false
  end.

(** ** Sample inputs

    Concrete draws and clock readings, used to run the definitions. *)

(** Every default symbol seeded with the draw [1/2], that is the price [200]. *)
Definition sampleSeed : nat → Qc := λ _, dec 1 2.

Definition sampleEnv : TradeEnv :=
  {| now_id := 1700000000000; rnd_id := dec 1 4; now_time := 1700000000000 |}.

(** A second trade in the millisecond of [sampleEnv], with another draw. *)
Definition sampleEnv2 : TradeEnv :=
  {| now_id := 1700000000000; rnd_id := dec 1 2; now_time := 1700000000000 |}.

(** The initial state after buying 10 AAPL at 150. *)
Definition sampleHolding : State :=
  (tradeReducer BUY "AAPL" (int 10) (int 150) sampleEnv (initialState sampleSeed)).1.

(** The text [{"cash":500}]: a saved state without a settings key. *)
Definition sampleBlob : string :=
  let quote := String (ascii_of_nat 34) EmptyString in
  ("{" +:+ quote +:+ "cash" +:+ quote +:+ ":500}")%string.

(** A stand-in for [JSON.parse] that reads [sampleBlob] and throws on every
    other text. *)
Definition sampleParse (s : string) : option json :=
  if decide (s = sampleBlob)
  then Some (JObj [("cash"%string, JNum (int 500))])
  else None.

(** A parsed saved state with all five top-level keys: cash 500, one
    watchlist entry, nothing held, no history, a refresh every 5 seconds. *)
Definition sampleSaved : json :=
  JObj [("cash"%string, JNum (int 500));
        ("watchlist"%string,
           JArr [JObj [("symbol"%string, JStr "IBM"); ("price"%string, JNum (int 120))]]);
        ("holdings"%string, JObj []);
        ("history"%string, JArr []);
        ("settings"%string, JObj [("refreshSecs"%string, JNum (int 5))])].

(** The initial state with [refreshSecs] set to 0. *)
Definition sampleNoRefresh : State := {|
  cash := int 10000;
  watchlist := [];
  holdings := ∅;
  history := [];
  settings := {| refreshSecs := int 0 |}
|}.

(** The state after the buy with the quantity field [abc]. *)
Definition sampleNaN : State :=
  run sampleSeed [OpTrade BUY "AAPL" "abc" sampleEnv].

(** ** Proof support *)

(** Orders and equations on [Qc] read as their counterparts on [Q]. *)
Ltac qc_unfold :=
  unfold qclamp, qmax, qmin, dec, Qc_of_Z in *;
  repeat case_decide;
  unfold Qcle, Qclt, Qcminus, Qcdiv, Qcplus, Qcmult, Qcopp, Q2Qc in *;
  cbn [this] in *;
  rewrite ?Qred_correct in *.

(** Integer literals as fractions; [inject_Z] of a variable stays as it is. *)
Ltac inject_consts :=
  repeat match goal with
  | |- context [inject_Z Z0] => change (inject_Z Z0) with (0 # 1)%Q in *
  | |- context [inject_Z (Zpos ?p)] =>
      change (inject_Z (Zpos p)) with (Zpos p # 1)%Q in *
  | |- context [inject_Z (Zneg ?p)] =>
      change (inject_Z (Zneg p)) with (Zneg p # 1)%Q in *
  | H : context [inject_Z Z0] |- _ => change (inject_Z Z0) with (0 # 1)%Q in *
  | H : context [inject_Z (Zpos ?p)] |- _ =>
      change (inject_Z (Zpos p)) with (Zpos p # 1)%Q in *
  | H : context [inject_Z (Zneg ?p)] |- _ =>
      change (inject_Z (Zneg p)) with (Zneg p # 1)%Q in *
  end.

(** Linear and non-linear arithmetic on [Qc]. *)
Ltac qc_lra := qc_unfold; inject_consts; lra.
Ltac qc_nra := qc_unfold; inject_consts; nra.

(** Closed equations and orders between concrete values, by evaluation. *)
Ltac by_eval := apply (bool_decide_eq_true_1 _); vm_compute; reflexivity.

(** ** Numbers *)

Lemma Fin_inj (x y : Qc) : Fin x = Fin y → x = y.
Proof.
  intros Heq.
  exact (f_equal (λ n, match n with Fin z => z | NaN => x end) Heq).
Qed.

Lemma truthy_Fin (x : Qc) : x ≠ 0 → truthy (Fin x) = true.
Proof. intros Hx. unfold truthy. by rewrite bool_decide_eq_true. Qed.

Lemma ndiv_Fin (x y : Qc) : y ≠ 0 → ndiv (Fin x) (Fin y) = Fin (x / y).
Proof. intros Hy. unfold ndiv. by rewrite decide_False. Qed.

Lemma ngt_Fin_false (x y : Qc) : x ≤ y → ngt (Fin x) (Fin y) = false.
Proof.
  intros Hxy. unfold ngt. apply bool_decide_eq_false. by apply Qcle_not_lt.
Qed.

Lemma nlt_Fin_false (x y : Qc) : y ≤ x → nlt (Fin x) (Fin y) = false.
Proof.
  intros Hxy. unfold nlt. apply bool_decide_eq_false. by apply Qcle_not_lt.
Qed.

Lemma Qc_of_Z_pos (z : Z) : (1 ≤ z)%Z → 1 ≤ Qc_of_Z z.
Proof. intros Hz. rewrite <- Z2Qc_inj_1. by apply (proj1 (Z2Qc_inj_le 1 z)). Qed.

(** ** Buying and selling *)

(** C1.  A buy of an integer quantity [q >= 1] at price [p] whose cost [q * p]
    does not exceed the cash.  The prior position is read from the holdings:
    [oq @ oa] when the symbol is held, and [0 @ 0] when it is not (and is no
    inherited name).  The buy leaves the position [oq + q] at the weighted
    average [(oq * oa + q * p) / (oq + q)], debits the cash by exactly
    [q * p] and puts one entry in front of the history, with the side BUY,
    the symbol, the quantity [q] and the price [p]; nothing else changes and
    no notice is raised. *)
Theorem buy_updates_position (prev : State) (sym : string) (env : TradeEnv)
    (q : Z) (p c oq oa : Qc) :
  (1 ≤ q)%Z →
  cash prev = Fin c →
  Qc_of_Z q * p ≤ c →
  (holdings prev !! sym = None ∧ inheritedName sym = false ∧ oq = 0 ∧ oa = 0) ∨
    holdings prev !! sym = Some {| qty := Fin oq; avg := Fin oa |} →
  0 ≤ oq →
  tradeReducer BUY sym (int q) (Fin p) env prev =
    ({| cash := Fin (c - Qc_of_Z q * p);
        watchlist := watchlist prev;
        holdings :=
          <[sym := {| qty := Fin (oq + Qc_of_Z q);
                      avg := Fin ((oq * oa + Qc_of_Z q * p) / (oq + Qc_of_Z q)) |}]>
            (holdings prev);
        history :=
          {| t_id := nadd (int (now_id env)) (Fin (rnd_id env));
             t_time := now_time env;
             t_side := BUY;
             t_symbol := sym;
             t_qty := int q;
             t_price := Fin p |} :: history prev;
        settings := settings prev |}, []).
Proof.
  intros Hq Hcash Hcost Hpos Hoq.
  assert (oq + Qc_of_Z q ≠ 0) as Hne.
  { apply Qc_of_Z_pos in Hq. intros Hz.
    assert (0 < oq + Qc_of_Z q) as Hlt by qc_lra.
    rewrite Hz in Hlt. by apply Qclt_not_eq in Hlt. }
  assert (positionOrDefault (holdings prev) sym = {| qty := Fin oq; avg := Fin oa |})
    as Hh.
  { unfold positionOrDefault.
    destruct Hpos as [(-> & _ & -> & ->) | ->]; cbn [default]; [|done].
    unfold int. by rewrite Z2Qc_inj_0. }
  unfold tradeReducer, int. rewrite Hcash. cbn [nmul].
  rewrite ngt_Fin_false by done.
  rewrite Hh. cbn [qty avg nadd nmul nsub].
  unfold newAvgOf. cbn [qty avg nadd nmul].
  rewrite truthy_Fin by done. rewrite ndiv_Fin by done.
  reflexivity.
Qed.

(** Two buys.  On the position 10 AAPL @ 150 (cash 8500), 5 more at 160: the
    position becomes 15 at the average (10 * 150 + 5 * 160) / 15 and the cash
    7700.  From the initial state, where nothing is held, 3 TSLA at 200: the
    position becomes 3 @ 200. *)
Lemma buy_updates_position_witness :
  tradeReducer BUY "AAPL" (int 5) (Fin (Qc_of_Z 160)) sampleEnv2 sampleHolding =
    ({| cash := Fin (Qc_of_Z 8500 - Qc_of_Z 5 * Qc_of_Z 160);
        watchlist := watchlist sampleHolding;
        holdings :=
          <["AAPL"%string :=
              {| qty := Fin (Qc_of_Z 10 + Qc_of_Z 5);
                 avg := Fin ((Qc_of_Z 10 * Qc_of_Z 150 + Qc_of_Z 5 * Qc_of_Z 160)
                             / (Qc_of_Z 10 + Qc_of_Z 5)) |}]> (holdings sampleHolding);
        history :=
          {| t_id := nadd (int (now_id sampleEnv2)) (Fin (rnd_id sampleEnv2));
             t_time := now_time sampleEnv2;
             t_side := BUY;
             t_symbol := "AAPL";
             t_qty := int 5;
             t_price := Fin (Qc_of_Z 160) |} :: history sampleHolding;
        settings := settings sampleHolding |}, []) ∧
  tradeReducer BUY "TSLA" (int 3) (Fin (Qc_of_Z 200)) sampleEnv (initialState sampleSeed) =
    ({| cash := Fin (Qc_of_Z 10000 - Qc_of_Z 3 * Qc_of_Z 200);
        watchlist := watchlist (initialState sampleSeed);
        holdings :=
          <["TSLA"%string :=
              {| qty := Fin (0 + Qc_of_Z 3);
                 avg := Fin ((0 * 0 + Qc_of_Z 3 * Qc_of_Z 200) / (0 + Qc_of_Z 3)) |}]>
            (holdings (initialState sampleSeed));
        history :=
          {| t_id := nadd (int (now_id sampleEnv)) (Fin (rnd_id sampleEnv));
             t_time := now_time sampleEnv;
             t_side := BUY;
             t_symbol := "TSLA";
             t_qty := int 3;
             t_price := Fin (Qc_of_Z 200) |} :: history (initialState sampleSeed);
        settings := settings (initialState sampleSeed) |}, []).
Proof.
  split.
  - apply (buy_updates_position sampleHolding "AAPL" sampleEnv2 5
             (Qc_of_Z 160) (Qc_of_Z 8500) (Qc_of_Z 10) (Qc_of_Z 150)).
    + lia.
    + by_eval.
    + by_eval.
    + right. by_eval.
    + by_eval.
  - apply (buy_updates_position (initialState sampleSeed) "TSLA" sampleEnv 3
             (Qc_of_Z 200) (Qc_of_Z 10000) 0 0).
    + lia.
    + reflexivity.
    + by_eval.
    + left. repeat split; reflexivity.
    + by_eval.
Defined.

(** C2.  A buy whose cost [q * p] exceeds the cash is rejected: the notice
    'Not enough cash' is raised and the state returned is the previous state
    itself, so cash, holdings, watchlist, history and settings are unchanged
    and no entry is added to the history. *)
Theorem buy_insufficient_cash (prev : State) (sym : string) (env : TradeEnv)
    (q p : num) :
  ngt (nmul q p) (cash prev) = true →
  tradeReducer BUY sym q p env prev = (prev, [NotEnoughCash]).
Proof. intros Hcost. unfold tradeReducer. by rewrite Hcost. Qed.

(** Buying 100 AAPL at 150 with cash 10000 is rejected. *)
Lemma buy_insufficient_cash_witness :
  tradeReducer BUY "AAPL" (int 100) (int 150) sampleEnv (initialState sampleSeed) =
    (initialState sampleSeed, [NotEnoughCash]).
Proof. apply buy_insufficient_cash. vm_compute. reflexivity. Defined.

(** A sell of [q] shares of a symbol that is not held (and is no inherited
    name), or of which fewer than [q] are held, is rejected: the notice
    'Not enough shares' is raised and the state returned is the previous
    state itself, so no entry is added to the history.  (For an inherited
    name that is not held the program does not reject the sell: its guard
    [!h || h.qty < q] meets the inherited function.) *)
Theorem sell_rejected_without_shares (prev : State) (sym : string) (env : TradeEnv)
    (q p : num) :
  (holdings prev !! sym = None ∧ inheritedName sym = false) ∨
    (∃ h, holdings prev !! sym = Some h ∧ nlt (qty h) q = true) →
  tradeReducer SELL sym q p env prev = (prev, [NotEnoughShares]).
Proof.
  intros [[Hnone _] | (h & Hsome & Hlt)]; unfold tradeReducer.
  - by rewrite Hnone.
  - by rewrite Hsome, Hlt.
Qed.

(** Selling 11 AAPL out of a position of 10, and selling MSFT, which is not
    held: both are rejected. *)
Lemma sell_rejected_without_shares_witness :
  tradeReducer SELL "AAPL" (int 11) (int 170) sampleEnv sampleHolding =
    (sampleHolding, [NotEnoughShares]) ∧
  tradeReducer SELL "MSFT" (int 1) (int 200) sampleEnv sampleHolding =
    (sampleHolding, [NotEnoughShares]).
Proof.
  split.
  - apply sell_rejected_without_shares. right.
    exists {| qty := nadd (int 0) (int 10);
              avg := newAvgOf {| qty := int 0; avg := int 0 |} (int 10) (int 150)
                       (nadd (int 0) (int 10)) |}.
    split; vm_compute; reflexivity.
  - apply sell_rejected_without_shares. left. split; vm_compute; reflexivity.
Defined.

(** C4.  A sell of [q] shares at price [p] out of a position of [oq >= q]
    shares: when [oq - q = 0] the position is removed from the holdings,
    otherwise its quantity becomes [oq - q] and its average cost stays as it
    was; the other positions are untouched, the cash is credited by exactly
    [q * p], one entry is put in front of the history, with the side SELL,
    the symbol, the quantity [q] and the price [p], and no notice is
    raised. *)
Theorem sell_updates_position (prev : State) (sym : string) (env : TradeEnv)
    (h : Position) (q oq : Qc) (p : num) :
  holdings prev !! sym = Some h →
  qty h = Fin oq →
  q ≤ oq →
  ∃ st,
    tradeReducer SELL sym (Fin q) p env prev = (st, []) ∧
    (oq - q = 0 → holdings st = delete sym (holdings prev)) ∧
    (oq - q ≠ 0 →
       holdings st = <[sym := {| qty := Fin (oq - q); avg := avg h |}]> (holdings prev)) ∧
    cash st = nadd (cash prev) (nmul (Fin q) p) ∧
    history st =
      {| t_id := nadd (int (now_id env)) (Fin (rnd_id env));
         t_time := now_time env;
         t_side := SELL;
         t_symbol := sym;
         t_qty := Fin q;
         t_price := p |} :: history prev ∧
    watchlist st = watchlist prev ∧
    settings st = settings prev.
Proof.
  intros Hsome Hqty Hle.
  unfold tradeReducer. rewrite Hsome, Hqty.
  rewrite nlt_Fin_false by done.
  eexists. split; [reflexivity|].
  cbn [holdings cash history watchlist settings nsub].
  unfold nstrict_eq, int. rewrite Z2Qc_inj_0.
  repeat split.
  - intros Hz. by rewrite bool_decide_eq_true_2.
  - intros Hnz. by rewrite bool_decide_eq_false_2.
Qed.

(** Selling 8 AAPL at 170 out of the position 10 @ 150. *)
Lemma sell_updates_position_witness :
  ∃ st,
    tradeReducer SELL "AAPL" (Fin (Qc_of_Z 8)) (int 170) sampleEnv sampleHolding = (st, []) ∧
    (Qc_of_Z 10 - Qc_of_Z 8 = 0 → holdings st = delete "AAPL"%string (holdings sampleHolding)) ∧
    (Qc_of_Z 10 - Qc_of_Z 8 ≠ 0 →
       holdings st =
         <["AAPL"%string := {| qty := Fin (Qc_of_Z 10 - Qc_of_Z 8); avg := int 150 |}]>
           (holdings sampleHolding)) ∧
    cash st = nadd (cash sampleHolding) (nmul (Fin (Qc_of_Z 8)) (int 170)) ∧
    history st =
      {| t_id := nadd (int (now_id sampleEnv)) (Fin (rnd_id sampleEnv));
         t_time := now_time sampleEnv;
         t_side := SELL;
         t_symbol := "AAPL";
         t_qty := Fin (Qc_of_Z 8);
         t_price := int 170 |} :: history sampleHolding ∧
    watchlist st = watchlist sampleHolding ∧
    settings st = settings sampleHolding.
Proof.
  apply (sell_updates_position sampleHolding "AAPL" sampleEnv
           {| qty := Fin (Qc_of_Z 10); avg := int 150 |}
           (Qc_of_Z 8) (Qc_of_Z 10) (int 170)).
  - by_eval.
  - reflexivity.
  - by_eval.
Defined.

(** ** Price drift *)

(** [driftPrice] on finite arguments, in one expression. *)
Lemma driftPrice_Fin (p v r : Qc) :
  driftPrice (Fin p) (Fin v) r =
    Fin (qclamp (p * (Qc_of_Z 1 + (r * Qc_of_Z 2 - Qc_of_Z 1) * v))
                (qmax (Qc_of_Z 1) (p * dec 85 100)) (p * dec 115 100)).
Proof. reflexivity. Qed.

(** The relative change [(2r - 1) * v] lies in [-v, v]. *)
Lemma drift_change_range (v r : Qc) :
  0 ≤ v → 0 ≤ r < 1 →
  - v ≤ (r * Qc_of_Z 2 - Qc_of_Z 1) * v ≤ v.
Proof. intros Hv [Hr0 Hr1]. split; qc_nra. Qed.

(** C6, counterexample.  At the positive price [1/2] (default volatility,
    draw [1/2]) the drifted price is [23/40]: below 1, although the claim
    says the result is never below 1 for every positive price. *)
Lemma driftPrice_below_one :
  0 < dec 1 2 ∧
  ∃ x, driftPrice (Fin (dec 1 2)) default_volatility (dec 1 2) = Fin x ∧ x < 1.
Proof.
  split; [by_eval|]. exists (dec 23 40). split; by_eval.
Qed.

(** C6, amended.  For a positive price [p], a volatility [v >= 0] and a draw
    [r] in [0, 1), [driftPrice] returns [p * (1 + u)], for a [u] in [-v, v],
    clamped with [min(max(., lo), hi)] where [lo = max(1, p * 0.85)] and
    [hi = p * 1.15].  The result is positive and within 15% of [p].  When
    [p >= 20/23] (so for every [p >= 1]) it lies in [lo, hi] and is at least
    1; when [p < 20/23] the upper bound wins: the result is [p * 1.15], below
    1.  From the price 100 the result lies in [85, 115]. *)
Theorem driftPrice_bounds (p v r : Qc) :
  0 < p → 0 ≤ v → 0 ≤ r < 1 →
  ∃ u x,
    - v ≤ u ≤ v ∧
    driftPrice (Fin p) (Fin v) r = Fin x ∧
    x = qclamp (p * (1 + u)) (qmax 1 (p * dec 85 100)) (p * dec 115 100) ∧
    p * dec 85 100 ≤ x ≤ p * dec 115 100 ∧
    0 < x ∧
    (dec 20 23 ≤ p → qmax 1 (p * dec 85 100) ≤ x ∧ 1 ≤ x) ∧
    (p < dec 20 23 → x = p * dec 115 100 ∧ x < 1) ∧
    (p = Qc_of_Z 100 → Qc_of_Z 85 ≤ x ≤ Qc_of_Z 115).
Proof.
  intros Hp Hv Hr.
  exists ((r * Qc_of_Z 2 - Qc_of_Z 1) * v). eexists.
  split; [by apply drift_change_range|].
  split; [apply driftPrice_Fin|].
  rewrite Z2Qc_inj_1.
  split; [reflexivity|].
  set (np := p * (1 + _)). clearbody np.
  clear Hv Hr v r.
  repeat split.
  - qc_lra.
  - qc_lra.
  - qc_lra.
  - qc_lra.
  - qc_lra.
  - unfold qclamp, qmin, qmax.
    repeat case_decide; try reflexivity; exfalso; qc_lra.
  - qc_lra.
  - subst p. qc_lra.
  - subst p. qc_lra.
Qed.

(** One drift of the price 100 with the default volatility. *)
Lemma driftPrice_bounds_witness :
  ∃ u x,
    - dec 15 1000 ≤ u ≤ dec 15 1000 ∧
    driftPrice (Fin (Qc_of_Z 100)) (Fin (dec 15 1000)) (dec 1 4) = Fin x ∧
    x = qclamp (Qc_of_Z 100 * (1 + u)) (qmax 1 (Qc_of_Z 100 * dec 85 100))
          (Qc_of_Z 100 * dec 115 100) ∧
    Qc_of_Z 100 * dec 85 100 ≤ x ≤ Qc_of_Z 100 * dec 115 100 ∧
    0 < x ∧
    (dec 20 23 ≤ Qc_of_Z 100 → qmax 1 (Qc_of_Z 100 * dec 85 100) ≤ x ∧ 1 ≤ x) ∧
    (Qc_of_Z 100 < dec 20 23 → x = Qc_of_Z 100 * dec 115 100 ∧ x < 1) ∧
    (Qc_of_Z 100 = Qc_of_Z 100 → Qc_of_Z 85 ≤ x ≤ Qc_of_Z 115).
Proof.
  apply (driftPrice_bounds (Qc_of_Z 100) (dec 15 1000) (dec 1 4)).
  - by_eval.
  - by_eval.
  - split; by_eval.
Defined.

(** ** Profit and loss, equity *)






(** ** Loading the saved state *)

Lemma spread_lookup (a b : obj) (k : string) :
  spread a b !! k = match b !! k with Some v => Some v | None => a !! k end.
Proof.
  unfold spread. destruct (b !! k) as [v|] eqn:Hb.
  - by apply lookup_union_Some_l.
  - by apply lookup_union_r.
Qed.

Lemma initialStateObj_settings (seed : nat → Qc) :
  initialStateObj seed !! "settings"%string =
    Some (JObj [("refreshSecs"%string, JNum (int 8))]).
Proof. reflexivity. Qed.

(** C7.  [loadState] returns the default initial state when reading the
    store fails, when nothing (or the empty text) is stored and when the
    stored text does not parse; no fault escapes.  Otherwise the result is
    the parsed value spread over the defaults: a top-level key of the parsed
    value has the parsed value, and every other key has its default.  In
    particular a saved state without a settings key loads with
    [settings.refreshSecs = 8]. *)
Theorem loadState_defaults_and_merge (JSON_parse : string → option json)
    (seed : nat → Qc) :
  loadState JSON_parse seed Rejected = initialStateObj seed ∧
  loadState JSON_parse seed (Resolved None) = initialStateObj seed ∧
  loadState JSON_parse seed (Resolved (Some ""%string)) = initialStateObj seed ∧
  (∀ raw, JSON_parse raw = None →
     loadState JSON_parse seed (Resolved (Some raw)) = initialStateObj seed) ∧
  (∀ raw parsed, raw ≠ ""%string → JSON_parse raw = Some parsed →
     (∀ k, loadState JSON_parse seed (Resolved (Some raw)) !! k =
             match ownProps parsed !! k with
             | Some v => Some v
             | None => initialStateObj seed !! k
             end) ∧
     (ownProps parsed !! "settings"%string = None →
        loadState JSON_parse seed (Resolved (Some raw)) !! "settings"%string
          ≫= member "refreshSecs" = Some (JNum (int 8)))).
Proof.
  split; [reflexivity|]. split; [reflexivity|]. split; [reflexivity|]. split.
  - intros raw Hraw. unfold loadState. rewrite Hraw. by case_decide.
  - intros raw parsed Hne Hparsed.
    assert (loadState JSON_parse seed (Resolved (Some raw)) =
              spread (initialStateObj seed) (ownProps parsed)) as ->.
    { unfold loadState. by rewrite decide_False, Hparsed. }
    split.
    + intros k. apply spread_lookup.
    + intros Hmissing.
      by rewrite spread_lookup, Hmissing, initialStateObj_settings.
Qed.

(** Loading [{"cash":500}]: the cash is the saved one, the settings are the
    defaults. *)
Lemma loadState_defaults_and_merge_witness :
  loadState sampleParse sampleSeed (Resolved (Some sampleBlob)) !! "cash"%string =
    Some (JNum (int 500)) ∧
  loadState sampleParse sampleSeed (Resolved (Some sampleBlob)) !! "settings"%string
    ≫= member "refreshSecs" = Some (JNum (int 8)).
Proof.
  destruct (loadState_defaults_and_merge sampleParse sampleSeed)
    as (_ & _ & _ & _ & Hmerge).
  destruct (Hmerge sampleBlob (JObj [("cash"%string, JNum (int 500))]))
    as [Hkeys Hsettings].
  - vm_compute. discriminate.
  - vm_compute. reflexivity.
  - split.
    + rewrite Hkeys. vm_compute. reflexivity.
    + apply Hsettings. vm_compute. reflexivity.
Defined.

(** ** Quantities read from the quantity field *)

Lemma Math_floor_int (z : Z) : Math_floor (int z) = int z.
Proof. unfold Math_floor, int. cbn [Qc_of_Z this]. by rewrite Qfloor_Z. Qed.

Lemma Math_max_int (a b : Z) : Math_max (int a) (int b) = int (Z.max a b).
Proof.
  unfold Math_max, int. f_equal. case_decide as Hab.
  - apply Z2Qc_inj_le in Hab. by rewrite Z.max_r.
  - rewrite Z.max_l; [done|].
    destruct (Z.le_ge_cases b a) as [?|Hle]; [done|].
    by apply Z2Qc_inj_le in Hle.
Qed.




(** ** The invariant under plain operations *)














(** The clamp of [driftPrice] keeps a price that is at least 1 at least 1. *)
Lemma qclamp_ge_one (p np : Qc) :
  1 ≤ p → 1 ≤ qclamp np (qmax (Qc_of_Z 1) (p * dec 85 100)) (p * dec 115 100).
Proof. intros Hp. qc_lra. Qed.


Lemma seedPrice_priceOk (s : string) (r : Qc) :
  0 ≤ r → priceOk {| symbol := s; price := seedPrice r |}.
Proof.
  intros Hr. unfold priceOk, seedPrice, int. cbn.
  eexists. split; [reflexivity|]. qc_lra.
Qed.





Section reachable.

(** The draws that seeded the default watchlist. *)
Variable seed : nat → Qc.
Hypothesis seed_draws : ∀ i, isDraw (seed i).

(** Establish: the initial state satisfies the invariant. *)
Lemma initialState_Inv : Inv (initialState seed).
Proof.
  split; cbn [cash watchlist holdings history initialState].
  - exists (Qc_of_Z 10000). split; [done | by_eval].
  - apply Forall_forall. intros w Hin.
    apply elem_of_lookup_imap_1 in Hin as (i & s & -> & _).
    apply seedPrice_priceOk. apply seed_draws.
  - apply map_Forall_empty.
  - constructor.
Qed.



End reachable.



(** A quantity field that reads as a number gives an integer quantity, at
    least 1: [parseInt]'s integer when that is at least 1, and 1 otherwise. *)
Theorem tradeQty_integer_at_least_one (qtyText : string) (z : Z) :
  parseInt10 (if decide (qtyText = ""%string) then "1"%string else qtyText) = int z →
  tradeQty qtyText = int (Z.max 1 z) ∧ (1 ≤ Z.max 1 z)%Z.
Proof.
  intros Hparse. split; [|lia].
  unfold tradeQty. by rewrite Hparse, Math_floor_int, Math_max_int.
Qed.

(** The field [2.7] is read as 2, and the field [-3] is raised to 1. *)
Lemma tradeQty_integer_at_least_one_witness :
  (tradeQty "2.7" = int (Z.max 1 2) ∧ (1 ≤ Z.max 1 2)%Z) ∧
  (tradeQty "-3" = int (Z.max 1 (-3)) ∧ (1 ≤ Z.max 1 (-3))%Z).
Proof.
  split.
  - apply (tradeQty_integer_at_least_one "2.7" 2). reflexivity.
  - apply (tradeQty_integer_at_least_one "-3" (-3)). reflexivity.
Defined.

(** C8, the failing input.  The quantity field [abc] holds no number (nor
    does the field [.]): [parseInt] returns [NaN], [Math.floor] and
    [Math.max(1, .)] keep it, and the quantity of the trade is [NaN].
    [NaN * price > cash] is false, so the buy is not rejected: the history
    gets an entry whose quantity is [NaN], the position of the symbol gets
    the quantity [NaN], and no notice is raised. *)
Theorem trade_of_non_numeric_qty :
  parseInt10 "abc" = NaN ∧
  tradeQty "abc" = NaN ∧
  tradeQty "." = NaN ∧
  ∃ st,
    doTrade BUY "AAPL" "abc" sampleEnv (initialState sampleSeed) = (st, []) ∧
    t_qty <$> history st = [NaN] ∧
    qty <$> holdings st !! "AAPL"%string = Some NaN.
Proof.
  split; [reflexivity|]. split; [reflexivity|]. split; [reflexivity|].
  eexists. split; [reflexivity|]. split; reflexivity.
Qed.

(** C5, the failing input.  From the initial state (cash 10000), a buy with
    the quantity field [abc] is carried out with the quantity [NaN] and
    leaves the cash [NaN]: [cash >= 0] is false after this operation, which
    was not rejected. *)
Theorem cash_invariant_broken_by_non_numeric_qty :
  cash (run sampleSeed []) = int 10000 ∧
  doTrade BUY "AAPL" "abc" sampleEnv (run sampleSeed []) =
    (run sampleSeed [OpTrade BUY "AAPL" "abc" sampleEnv], []) ∧
  cash (run sampleSeed [OpTrade BUY "AAPL" "abc" sampleEnv]) = NaN ∧
  nge (cash (run sampleSeed [OpTrade BUY "AAPL" "abc" sampleEnv])) (int 0) = false.
Proof. repeat split. Qed.

(** ** Trade ids *)

(** C9, the failing input.  Two buys issued in the same millisecond whose
    [Math.random()] calls return the same value: neither is rejected, both
    entries are in the history, and the two entries have the same id.  (The
    id is the sum of the clock reading and the draw, there is no counter;
    the program's sum is a double, so that draws which differ by less than
    the spacing of the doubles at the clock reading give equal ids as
    well.) *)
Theorem duplicate_trade_ids :
  ∃ r1 r2,
    history (run sampleSeed [OpTrade BUY "AAPL" "1" sampleEnv;
                             OpTrade BUY "AAPL" "1" sampleEnv]) = [r1; r2] ∧
    t_side r1 = BUY ∧ t_side r2 = BUY ∧
    t_id r1 = t_id r2.
Proof. eexists _, _. repeat split; reflexivity. Qed.

(** ** Further properties *)



(** [addSymbolToWatch] does nothing when the field is blank or when the
    trimmed, upper-cased symbol is already on the watchlist. *)
Theorem addSymbolToWatch_noop (addSym : string) (r : Qc) (st : State) :
  toUpperCase (trim addSym) = ""%string ∨
    toUpperCase (trim addSym) ∈ (symbol <$> watchlist st) →
  addSymbolToWatch addSym r st = st.
Proof.
  intros Hcase. unfold addSymbolToWatch.
  case_decide as Hblank; [done|].
  destruct Hcase as [? | Hin]; [done|].
  apply list_elem_of_fmap in Hin as (w & Hw & Hin).
  assert (existsb (λ w, bool_decide (symbol w = toUpperCase (trim addSym)))
            (watchlist st) = true) as ->; [|done].
  apply existsb_exists. exists w. split.
  - by apply list_elem_of_In.
  - by apply bool_decide_eq_true.
Qed.

(** Adding [aapl] when AAPL is on the watchlist. *)
Lemma addSymbolToWatch_noop_witness :
  addSymbolToWatch " aapl " (dec 1 2) (initialState sampleSeed) =
    initialState sampleSeed.
Proof.
  apply addSymbolToWatch_noop. right. by_eval.
Defined.

(** [removeSymbol] drops the watchlist entries of the symbol and leaves the
    cash, the holdings, the history and the settings as they are. *)
Theorem removeSymbol_frame (sym : string) (st : State) :
  (sym ∉ symbol <$> watchlist (removeSymbol sym st)) ∧
  cash (removeSymbol sym st) = cash st ∧
  holdings (removeSymbol sym st) = holdings st ∧
  history (removeSymbol sym st) = history st ∧
  settings (removeSymbol sym st) = settings st.
Proof.
  split; [|done]. cbn.
  intros (w & Hw & Hin)%list_elem_of_fmap.
  apply list_elem_of_filter in Hin as [Hne _]. done.
Qed.

(** ** The price map *)

(** The price map after the entries of [wl] are written over [m]. *)
Lemma priceMapFrom_foldl (wl : list WatchItem) (m : gmap string num) (sym : string) :
  foldl (λ m w, <[symbol w := price w]> m) m wl !! sym =
    match last (filter (λ w, symbol w = sym) wl) with
    | Some w => Some (price w)
    | None => m !! sym
    end.
Proof.
  revert m. induction wl as [|w wl IH]; intros m; [done|].
  cbn [foldl]. rewrite IH, filter_cons.
  case_decide as Hw.
  - rewrite last_cons. destruct (last (filter _ wl)); [done|].
    by rewrite Hw, lookup_insert_eq.
  - destruct (last (filter _ wl)); [done|]. by rewrite lookup_insert_ne.
Qed.

Lemma priceMapFrom_last (wl : list WatchItem) (sym : string) :
  priceMapFrom wl !! sym = price <$> last (filter (λ w, symbol w = sym) wl).
Proof.
  unfold priceMapFrom. rewrite priceMapFrom_foldl.
  by destruct (last (filter _ wl)).
Qed.

Lemma priceMapFrom_off_watchlist (wl : list WatchItem) (sym : string) :
  sym ∉ (symbol <$> wl) → priceMapFrom wl !! sym = None.
Proof.
  intros Hnot. rewrite priceMapFrom_last.
  destruct (last (filter _ wl)) as [w|] eqn:Hlast; [|done].
  exfalso. apply Hnot.
  apply last_Some_elem_of, list_elem_of_filter in Hlast as [<- Hin].
  by apply list_elem_of_fmap_2.
Qed.

(** On a list without repeated symbols an entry is known by its symbol. *)
Lemma NoDup_symbol_inj (wl : list WatchItem) (w w' : WatchItem) :
  NoDup (symbol <$> wl) → w ∈ wl → w' ∈ wl → symbol w = symbol w' → w = w'.
Proof.
  induction wl as [|w0 wl IH]; intros Hnd Hw Hw' Hsym;
    [by apply elem_of_nil in Hw|].
  cbn in Hnd. apply NoDup_cons in Hnd as [Hw0 Hnd].
  apply elem_of_cons in Hw as [->|Hw]; apply elem_of_cons in Hw' as [->|Hw'].
  - done.
  - exfalso. apply Hw0. rewrite Hsym. by apply list_elem_of_fmap_2.
  - exfalso. apply Hw0. rewrite <- Hsym. by apply list_elem_of_fmap_2.
  - by apply IH.
Qed.

Lemma priceMapFrom_on_watchlist (wl : list WatchItem) (w : WatchItem) :
  NoDup (symbol <$> wl) → w ∈ wl →
  priceMapFrom wl !! symbol w = Some (price w).
Proof.
  intros Hnd Hin. rewrite priceMapFrom_last.
  destruct (last (filter _ wl)) as [w'|] eqn:Hlast.
  - apply last_Some_elem_of, list_elem_of_filter in Hlast as [Hsym Hin'].
    cbn. f_equal. f_equal. by apply (NoDup_symbol_inj wl).
  - apply last_None in Hlast.
    exfalso. by apply (filter_nil_not_elem_of _ _ w Hlast).
Qed.

(** The price the program reads for a symbol that is no inherited name: the
    price of the symbol's last watchlist entry; none, and so the fallback 0,
    when the symbol is not on the list; and the price of its only entry when
    the list has no repeated symbol. *)
Theorem priceMapFrom_lookup_cases (wl : list WatchItem) (sym : string) :
  inheritedName sym = false →
  priceMapFrom wl !! sym = price <$> last (filter (λ w, symbol w = sym) wl) ∧
  (sym ∉ (symbol <$> wl) →
   priceMapFrom wl !! sym = None ∧ lastPrice (priceMapFrom wl) sym = int 0) ∧
  (NoDup (symbol <$> wl) →
   ∀ w, w ∈ wl → symbol w = sym →
        priceMapFrom wl !! sym = Some (price w) ∧
        lastPrice (priceMapFrom wl) sym = price w).
Proof.
  intros _. split; [apply priceMapFrom_last|]. split.
  - intros Hnot. unfold lastPrice. by rewrite priceMapFrom_off_watchlist.
  - intros Hnd w Hin <-. unfold lastPrice.
    by rewrite priceMapFrom_on_watchlist.
Qed.

Lemma priceMapFrom_lookup_cases_witness :
  (priceMapFrom (watchlist (initialState sampleSeed)) !! "IBM"%string = None ∧
   lastPrice (priceMapFrom (watchlist (initialState sampleSeed))) "IBM" = int 0) ∧
  (priceMapFrom (watchlist (initialState sampleSeed)) !! "MSFT"%string =
     Some (seedPrice (sampleSeed 1%nat)) ∧
   lastPrice (priceMapFrom (watchlist (initialState sampleSeed))) "MSFT" =
     seedPrice (sampleSeed 1%nat)).
Proof.
  destruct (priceMapFrom_lookup_cases (watchlist (initialState sampleSeed)) "IBM")
    as (_ & Hoff & _); [reflexivity|].
  destruct (priceMapFrom_lookup_cases (watchlist (initialState sampleSeed)) "MSFT")
    as (_ & _ & Hon); [reflexivity|].
  split.
  - apply Hoff. by_eval.
  - apply (Hon ltac:(by_eval) {| symbol := "MSFT"; price := seedPrice (sampleSeed 1%nat) |}).
    + by_eval.
    + reflexivity.
Defined.

(** ** Trading off the watchlist *)

Lemma doTrade_off_watchlist (side : Side) (sym qtyText : string) (env : TradeEnv)
    (st : State) :
  sym ∉ (symbol <$> watchlist st) → doTrade side sym qtyText env st = (st, []).
Proof.
  intros Hnot. unfold doTrade, lastPrice.
  by rewrite priceMapFrom_off_watchlist.
Qed.

Lemma removeSymbol_not_listed (sym : string) (st : State) :
  sym ∉ (symbol <$> watchlist (removeSymbol sym st)).
Proof.
  cbn. intros (w & Hw & Hin)%list_elem_of_fmap.
  by apply list_elem_of_filter in Hin as [Hne _].
Qed.

(** A symbol that is not on the watchlist, and is no inherited name, can be
    neither bought nor sold: [doTrade] leaves the state as it is and raises
    no notice.  So once such a symbol has been removed from the watchlist,
    the shares held of it cannot be sold. *)
Theorem trade_needs_watchlist_entry (side : Side) (sym qtyText : string)
    (env : TradeEnv) (st : State) :
  inheritedName sym = false →
  (sym ∉ (symbol <$> watchlist st) →
   doTrade side sym qtyText env st = (st, [])) ∧
  doTrade side sym qtyText env (removeSymbol sym st) = (removeSymbol sym st, []).
Proof.
  intros _. split; [apply doTrade_off_watchlist|].
  apply doTrade_off_watchlist, removeSymbol_not_listed.
Qed.

(** IBM is not on the default watchlist; AAPL is held and removed from it. *)
Lemma trade_needs_watchlist_entry_witness :
  doTrade BUY "IBM" "1" sampleEnv sampleHolding = (sampleHolding, []) ∧
  doTrade SELL "AAPL" "5" sampleEnv (removeSymbol "AAPL" sampleHolding) =
    (removeSymbol "AAPL" sampleHolding, []).
Proof.
  split.
  - apply (proj1 (trade_needs_watchlist_entry BUY "IBM" "1" sampleEnv
                    sampleHolding eq_refl)).
    by_eval.
  - apply (proj2 (trade_needs_watchlist_entry SELL "AAPL" "5" sampleEnv
                    sampleHolding eq_refl)).
Defined.

(** ** The watchlist stays unique and upper case *)

Lemma upper_char_idemp (c : ascii) : upper_char (upper_char c) = upper_char c.
Proof. by destruct c as [[] [] [] [] [] [] [] []]. Qed.

Lemma toUpperCase_idemp (s : string) : toUpperCase (toUpperCase s) = toUpperCase s.
Proof. induction s as [|c s IH]; cbn; [done|]. by rewrite upper_char_idemp, IH. Qed.

(** An upper-case symbol is no inherited name: each inherited name has a
    lower-case letter. *)
Lemma toUpperCase_not_inherited (s : string) : inheritedName (toUpperCase s) = false.
Proof.
  apply bool_decide_eq_false. intros Hin.
  pose proof (toUpperCase_idemp s) as Hidem.
  unfold inheritedNames in Hin.
  repeat (apply elem_of_cons in Hin as [Heq|Hin];
          [rewrite Heq in Hidem; discriminate Hidem|]).
  by apply elem_of_nil in Hin.
Qed.

(** The names a symbol field can hold that the program finds on
    [Object.prototype], next to symbols it does not. *)
Example inheritedName_samples :
  inheritedName "constructor" = true ∧ inheritedName "toString" = true ∧
  inheritedName "__proto__" = true ∧
  inheritedName "AAPL" = false ∧ inheritedName "CONSTRUCTOR" = false ∧
  inheritedName "" = false.
Proof. repeat split. Qed.

(** The two bytes of a letter outside ASCII are no ASCII text. *)
Example isAscii_samples :
  isAscii " ibm" = true ∧
  isAscii (String (ascii_of_nat 195) (String (ascii_of_nat 169) "")) = false.
Proof. split; reflexivity. Qed.

Lemma symbolOk_not_inherited (s : string) : symbolOk s → inheritedName s = false.
Proof. intros [<- _]. apply toUpperCase_not_inherited. Qed.

Lemma existsb_symbol_false (wl : list WatchItem) (s : string) :
  existsb (λ w, bool_decide (symbol w = s)) wl = false → s ∉ (symbol <$> wl).
Proof.
  intros Hex (w & -> & Hin)%list_elem_of_fmap.
  assert (existsb (λ w', bool_decide (symbol w' = symbol w)) wl = true) as Htrue.
  { apply existsb_exists. exists w. split; [by apply list_elem_of_In|].
    by apply bool_decide_eq_true. }
  congruence.
Qed.

Lemma initialState_watchlistOk (seed : nat → Qc) : watchlistOk (initialState seed).
Proof.
  unfold watchlistOk. cbn [watchlist initialState].
  rewrite fmap_imap.
  change (imap (λ n, symbol ∘ _) DEFAULT_SYMBOLS) with DEFAULT_SYMBOLS.
  split.
  - by apply (bool_decide_eq_true_1 _).
  - unfold symbolOk. repeat constructor; done.
Qed.

Lemma tick_symbols (draws : nat → Qc) (st : State) :
  symbol <$> watchlist (tick draws st) = symbol <$> watchlist st.
Proof.
  cbn. rewrite fmap_imap. generalize (watchlist st) as wl.
  intros wl. apply list_eq. intros i.
  rewrite list_lookup_imap, !list_lookup_fmap. by destruct (wl !! i).
Qed.

(** A trade never touches the watchlist or the settings. *)
Lemma doTrade_watchlist (side : Side) (sym qtyText : string) (env : TradeEnv)
    (st : State) :
  watchlist (doTrade side sym qtyText env st).1 = watchlist st ∧
  settings (doTrade side sym qtyText env st).1 = settings st.
Proof.
  unfold doTrade. case_match; [|done].
  unfold tradeReducer. by repeat case_match.
Qed.

Lemma removeSymbol_symbols_sublist (sym : string) (st : State) :
  (symbol <$> watchlist (removeSymbol sym st)) `sublist_of` (symbol <$> watchlist st).
Proof. cbn. apply fmap_sublist, sublist_filter. Qed.

Lemma applyOp_watchlistOk (seed : nat → Qc) (st : State) (op : Op) :
  watchlistOk st → watchlistOk (applyOp seed st op).
Proof.
  intros [Hnd Hok]. destruct op as [side sym q env|draws|a r|sym|[|]]; cbn [applyOp].
  - unfold watchlistOk. by rewrite (proj1 (doTrade_watchlist _ _ _ _ _)).
  - unfold watchlistOk. by rewrite tick_symbols.
  - unfold addSymbolToWatch. case_decide as Hblank; [done|].
    destruct (existsb _ _) eqn:Hex; [done|].
    apply existsb_symbol_false in Hex.
    split; cbn.
    + by apply NoDup_cons.
    + constructor; [|done]. split; [apply toUpperCase_idemp | done].
  - pose proof (removeSymbol_symbols_sublist sym st) as Hsub. split.
    + by eapply sublist_NoDup.
    + rewrite Forall_forall in *. intros s Hs. apply Hok.
      by eapply elem_of_sublist.
  - apply initialState_watchlistOk.
  - done.
Qed.

Lemma foldl_applyOp_watchlistOk (seed : nat → Qc) (ops : list Op) (st : State) :
  watchlistOk st → watchlistOk (foldl (applyOp seed) st ops).
Proof.
  revert st. induction ops as [|op ops IH]; intros st Hst; [done|].
  cbn [foldl]. by apply IH, applyOp_watchlistOk.
Qed.

(** In every state reached from the initial state the watchlist has no
    repeated symbol, every symbol on it is upper case and not blank, and
    every entry has its own price in the price map. *)
Theorem watchlist_unique_upper_case (seed : nat → Qc) (ops : list Op) :
  NoDup (symbol <$> watchlist (run seed ops)) ∧
  Forall symbolOk (symbol <$> watchlist (run seed ops)) ∧
  ∀ w, w ∈ watchlist (run seed ops) →
       priceMapFrom (watchlist (run seed ops)) !! symbol w = Some (price w).
Proof.
  destruct (foldl_applyOp_watchlistOk seed ops _ (initialState_watchlistOk seed))
    as [Hnd Hok].
  split; [done|]. split; [done|].
  intros w Hin. by apply priceMapFrom_on_watchlist.
Qed.

(** In every state reached from the initial state no symbol of the watchlist
    is an inherited name: the default symbols and the symbols
    [addSymbolToWatch] stores are upper case.  So the symbols that have a
    price are symbols for which the program reads [holdings] and the price
    map by their own properties. *)
Theorem watchlist_symbols_not_inherited (seed : nat → Qc) (ops : list Op) :
  Forall (λ w, inheritedName (symbol w) = false) (watchlist (run seed ops)).
Proof.
  destruct (foldl_applyOp_watchlistOk seed ops _ (initialState_watchlistOk seed))
    as [_ Hok].
  rewrite Forall_fmap in Hok. eapply Forall_impl; [exact Hok|].
  intros w Hw. by apply symbolOk_not_inherited.
Qed.

(** ** Settings and the timer *)

Lemma applyOp_settings (seed : nat → Qc) (st : State) (op : Op) :
  settings st = settings (initialState seed) →
  settings (applyOp seed st op) = settings (initialState seed).
Proof.
  intros Hst. destruct op as [side sym q env|draws|a r|sym|[|]]; cbn [applyOp].
  - by rewrite (proj2 (doTrade_watchlist _ _ _ _ _)).
  - done.
  - unfold addSymbolToWatch. by repeat case_match.
  - done.
  - done.
  - done.
Qed.

(** No operation changes the settings: in every state reached from the
    initial state [refreshSecs] is 8 and the price timer runs every 8000
    milliseconds. *)
Theorem settings_never_change (seed : nat → Qc) (ops : list Op) :
  settings (run seed ops) = {| refreshSecs := int 8 |} ∧
  tickIntervalMs (run seed ops) = int 8000.
Proof.
  assert (settings (run seed ops) = settings (initialState seed)) as Hs.
  { unfold run. generalize (eq_refl (settings (initialState seed))).
    generalize (initialState seed) at 1 3 as st.
    induction ops as [|op ops IH]; intros st Hst; [done|].
    cbn [foldl]. by apply IH, applyOp_settings. }
  split; [done|]. unfold tickIntervalMs. rewrite Hs. by_eval.
Qed.

(** The timer period is a number other than 0 whatever [refreshSecs] holds:
    [0] and [NaN] fall back to 8 seconds. *)
Theorem tickIntervalMs_truthy (st : State) :
  truthy (tickIntervalMs st) = true ∧
  (truthy (refreshSecs (settings st)) = false → tickIntervalMs st = int 8000).
Proof.
  unfold tickIntervalMs. destruct (truthy (refreshSecs (settings st))) eqn:Ht.
  - split; [|done]. destruct (refreshSecs (settings st)) as [|x]; [done|].
    cbn in *. apply bool_decide_eq_true in Ht. apply bool_decide_eq_true.
    intros Hz. apply Qcmult_integral in Hz as [?|Hk]; [done|].
    revert Hk. by apply (bool_decide_eq_true_1 _).
  - split; [by_eval|]. intros _. by_eval.
Qed.

(** ** The history *)

(** What a trade can do: nothing (no price), a rejection with a notice, or
    one entry in front of the history. *)
Lemma doTrade_cases (side : Side) (sym qtyText : string) (env : TradeEnv)
    (st : State) :
  let p := lastPrice (priceMapFrom (watchlist st)) sym in
  doTrade side sym qtyText env st = (st, []) ∨
  doTrade side sym qtyText env st =
    (st, [match side with BUY => NotEnoughCash | SELL => NotEnoughShares end]) ∨
  ∃ st',
    doTrade side sym qtyText env st = (st', []) ∧
    truthy p = true ∧
    history st' = tradeRecord side sym (tradeQty qtyText) p env :: history st ∧
    (∀ s, s ≠ sym → holdings st' !! s = holdings st !! s).
Proof.
  intros p. unfold doTrade. fold p.
  destruct (truthy p) eqn:Hp; [|by left].
  unfold tradeReducer. destruct side.
  - case_match; [right; by left|].
    right; right. eexists. split; [done|]. split; [done|]. split; [done|].
    intros s Hs. cbn. by rewrite lookup_insert_ne.
  - destruct (holdings st !! sym) as [h|]; [|right; by left].
    case_match; [right; by left|].
    right; right. eexists. split; [done|]. split; [done|]. split; [done|].
    intros s Hs. cbn. case_match.
    + by rewrite lookup_delete_ne.
    + by rewrite lookup_insert_ne.
Qed.

(** The three outcomes of [doTrade] on a symbol that is no inherited name,
    each with its condition.  Without a truthy price nothing happens.  With
    one, the trade is rejected when its cost exceeds the cash (a buy) or
    when the symbol is not held or fewer shares are held than asked for (a
    sell): the notice of the side is raised and the state is unchanged.
    Otherwise the trade is carried out without notice: one entry is put in
    front of the history with the side, the symbol, the quantity read from
    the field and the price read from the price map, the cost is taken from
    or added to the cash, no position other than the symbol's changes, and
    the watchlist and the settings are kept. *)
Theorem doTrade_outcomes (side : Side) (sym qtyText : string) (env : TradeEnv)
    (st : State) :
  inheritedName sym = false →
  let q := tradeQty qtyText in
  let p := lastPrice (priceMapFrom (watchlist st)) sym in
  let rejected :=
    match side with
    | BUY => ngt (nmul q p) (cash st)
    | SELL => match holdings st !! sym with
              | None => true
              | Some h => nlt (qty h) q
              end
    end in
  (truthy p = false → doTrade side sym qtyText env st = (st, [])) ∧
  (truthy p = true → rejected = true →
   doTrade side sym qtyText env st =
     (st, [match side with BUY => NotEnoughCash | SELL => NotEnoughShares end])) ∧
  (truthy p = true → rejected = false →
   ∃ st',
     doTrade side sym qtyText env st = (st', []) ∧
     history st' =
       {| t_id := nadd (int (now_id env)) (Fin (rnd_id env));
          t_time := now_time env;
          t_side := side;
          t_symbol := sym;
          t_qty := q;
          t_price := p |} :: history st ∧
     cash st' =
       match side with
       | BUY => nsub (cash st) (nmul q p)
       | SELL => nadd (cash st) (nmul q p)
       end ∧
     (∀ s, s ≠ sym → holdings st' !! s = holdings st !! s) ∧
     watchlist st' = watchlist st ∧
     settings st' = settings st).
Proof.
  intros _ q p rejected. unfold doTrade. fold q p.
  split; [by intros ->|]. split.
  - intros -> Hrej. unfold tradeReducer. subst rejected.
    destruct side; [by rewrite Hrej|].
    destruct (holdings st !! sym) as [h|]; [by rewrite Hrej | done].
  - intros -> Hrej. unfold tradeReducer. subst rejected.
    destruct side.
    + rewrite Hrej. eexists. split; [done|]. repeat split.
      intros s Hs. cbn. by rewrite lookup_insert_ne.
    + destruct (holdings st !! sym) as [h|]; [|done]. rewrite Hrej.
      eexists. split; [done|]. repeat split.
      intros s Hs. cbn. case_match.
      * by rewrite lookup_delete_ne.
      * by rewrite lookup_insert_ne.
Qed.

(** On the position 10 AAPL @ 150 with AAPL priced 200: IBM has no price and
    nothing happens; a sell of 11 AAPL is rejected; a sell of 4 AAPL is
    carried out. *)
Lemma doTrade_outcomes_witness :
  doTrade BUY "IBM" "1" sampleEnv2 sampleHolding = (sampleHolding, []) ∧
  doTrade SELL "AAPL" "11" sampleEnv2 sampleHolding =
    (sampleHolding, [NotEnoughShares]) ∧
  ∃ st',
    doTrade SELL "AAPL" "4" sampleEnv2 sampleHolding = (st', []) ∧
    history st' =
      {| t_id := nadd (int (now_id sampleEnv2)) (Fin (rnd_id sampleEnv2));
         t_time := now_time sampleEnv2;
         t_side := SELL;
         t_symbol := "AAPL";
         t_qty := tradeQty "4";
         t_price := lastPrice (priceMapFrom (watchlist sampleHolding)) "AAPL" |}
        :: history sampleHolding ∧
    cash st' =
      nadd (cash sampleHolding)
        (nmul (tradeQty "4") (lastPrice (priceMapFrom (watchlist sampleHolding)) "AAPL")) ∧
    (∀ s, s ≠ "AAPL"%string → holdings st' !! s = holdings sampleHolding !! s) ∧
    watchlist st' = watchlist sampleHolding ∧
    settings st' = settings sampleHolding.
Proof.
  split; [|split].
  - apply (proj1 (doTrade_outcomes BUY "IBM" "1" sampleEnv2 sampleHolding eq_refl)).
    reflexivity.
  - apply (proj1 (proj2 (doTrade_outcomes SELL "AAPL" "11" sampleEnv2 sampleHolding
                           eq_refl))); vm_compute; reflexivity.
  - apply (proj2 (proj2 (doTrade_outcomes SELL "AAPL" "4" sampleEnv2 sampleHolding
                           eq_refl))); vm_compute; reflexivity.
Defined.

Lemma applyOp_history_suffix (seed : nat → Qc) (st : State) (op : Op) :
  isReset op = false → history st `suffix_of` history (applyOp seed st op).
Proof.
  intros Hop. destruct op as [side sym q env|draws|a r|sym|[|]]; cbn [applyOp];
    try done.
  - destruct (doTrade_cases side sym q env st) as [-> | [-> | (st' & -> & _ & Hh & _)]];
      cbn [fst]; [done | done |]. rewrite Hh. by apply suffix_cons_r.
  - unfold addSymbolToWatch. by repeat case_match.
Qed.

(** Without a confirmed reset the history only grows at the front: the
    history before a sequence of operations is a suffix of the history after
    it, so no entry is ever changed, moved or dropped. *)
Theorem history_append_only (seed : nat → Qc) (ops : list Op) (st : State) :
  forallb (λ op, negb (isReset op)) ops = true →
  history st `suffix_of` history (foldl (applyOp seed) st ops).
Proof.
  revert st. induction ops as [|op ops IH]; intros st Hops; [done|].
  cbn in Hops. apply andb_true_iff in Hops as [Hop Hops].
  apply negb_true_iff in Hop.
  cbn [foldl]. etrans; [by apply applyOp_history_suffix|]. by apply IH.
Qed.

Lemma history_append_only_witness :
  history sampleHolding `suffix_of`
    history (foldl (applyOp sampleSeed) sampleHolding
               [OpTick sampleSeed; OpTrade SELL "AAPL" "4" sampleEnv2;
                OpRemoveSymbol "AAPL"]).
Proof. apply history_append_only. reflexivity. Defined.

(** A confirmed reset forgets everything before it: the state after a
    sequence of operations that contains a confirmed reset is the state that
    the operations after the reset give from the initial state, with the
    prices the watchlist was first seeded with. *)
Theorem reset_forgets (seed : nat → Qc) (before after : list Op) (st : State) :
  foldl (applyOp seed) st (before ++ OpResetAll true :: after) = run seed after.
Proof. by rewrite foldl_app. Qed.

(** ** Total value *)




(** ** Buying and selling back *)

(** Buying [q] shares of a symbol that is not held (and is no inherited
    name) and selling them back at the same price: both trades are carried
    out, the position is deleted again and the holdings are exactly what
    they were; the cash is the old cash less the cost and plus the cost
    again; the history has the two entries in front, the sell before the
    buy; the watchlist and the settings are kept. *)
Theorem buy_then_sell_back (sym : string) (q p c : Qc) (env1 env2 : TradeEnv)
    (st : State) :
  holdings st !! sym = None →
  inheritedName sym = false →
  cash st = Fin c →
  q * p ≤ c →
  ∃ st1 st2,
    tradeReducer BUY sym (Fin q) (Fin p) env1 st = (st1, []) ∧
    tradeReducer SELL sym (Fin q) (Fin p) env2 st1 = (st2, []) ∧
    cash st2 = Fin (c - q * p + q * p) ∧
    holdings st2 = holdings st ∧
    watchlist st2 = watchlist st ∧
    settings st2 = settings st ∧
    history st2 =
      {| t_id := nadd (int (now_id env2)) (Fin (rnd_id env2));
         t_time := now_time env2;
         t_side := SELL;
         t_symbol := sym;
         t_qty := Fin q;
         t_price := Fin p |}
      :: {| t_id := nadd (int (now_id env1)) (Fin (rnd_id env1));
            t_time := now_time env1;
            t_side := BUY;
            t_symbol := sym;
            t_qty := Fin q;
            t_price := Fin p |}
      :: history st.
Proof.
  intros Hnone _ Hcash Hcost.
  eexists _, _. split.
  { unfold tradeReducer. rewrite Hcash. cbn [nmul].
    rewrite ngt_Fin_false by done. reflexivity. }
  unfold positionOrDefault. rewrite Hnone. cbn [default qty avg].
  unfold tradeReducer at 1. cbn [holdings cash history watchlist settings].
  rewrite lookup_insert_eq. cbn [qty avg]. unfold int. cbn [nadd].
  rewrite nlt_Fin_false.
  2:{ rewrite Z2Qc_inj_0, Qcplus_0_l. apply Qcle_refl. }
  cbn [nsub nstrict_eq]. rewrite bool_decide_eq_true_2.
  2:{ rewrite Z2Qc_inj_0. ring. }
  split; [reflexivity|]. cbn [cash holdings watchlist settings history nmul nsub nadd].
  repeat split.
  by rewrite delete_insert_id.
Qed.

Lemma buy_then_sell_back_witness :
  ∃ st1 st2,
    tradeReducer BUY "TSLA" (Fin (Qc_of_Z 3)) (Fin (Qc_of_Z 200)) sampleEnv
      (initialState sampleSeed) = (st1, []) ∧
    tradeReducer SELL "TSLA" (Fin (Qc_of_Z 3)) (Fin (Qc_of_Z 200)) sampleEnv2 st1 =
      (st2, []) ∧
    cash st2 =
      Fin (Qc_of_Z 10000 - Qc_of_Z 3 * Qc_of_Z 200 + Qc_of_Z 3 * Qc_of_Z 200) ∧
    holdings st2 = holdings (initialState sampleSeed) ∧
    watchlist st2 = watchlist (initialState sampleSeed) ∧
    settings st2 = settings (initialState sampleSeed) ∧
    history st2 =
      {| t_id := nadd (int (now_id sampleEnv2)) (Fin (rnd_id sampleEnv2));
         t_time := now_time sampleEnv2;
         t_side := SELL;
         t_symbol := "TSLA";
         t_qty := Fin (Qc_of_Z 3);
         t_price := Fin (Qc_of_Z 200) |}
      :: {| t_id := nadd (int (now_id sampleEnv)) (Fin (rnd_id sampleEnv));
            t_time := now_time sampleEnv;
            t_side := BUY;
            t_symbol := "TSLA";
            t_qty := Fin (Qc_of_Z 3);
            t_price := Fin (Qc_of_Z 200) |}
      :: history (initialState sampleSeed).
Proof.
  apply (buy_then_sell_back "TSLA" (Qc_of_Z 3) (Qc_of_Z 200) (Qc_of_Z 10000)).
  - reflexivity.
  - reflexivity.
  - reflexivity.
  - by_eval.
Defined.

(** ** The price tick *)

Lemma qclamp_within (p np : Qc) :
  1 ≤ p →
  p * dec 85 100 ≤ qclamp np (qmax (Qc_of_Z 1) (p * dec 85 100)) (p * dec 115 100)
    ≤ p * dec 115 100.
Proof. intros Hp. split; qc_lra. Qed.

(** One tick keeps the watchlist entry by entry: the same symbols in the same
    order, each price (at least 1 before) within 15% of what it was and
    still at least 1; the cash, the holdings, the history and the settings
    are untouched. *)
Theorem tick_drifts_every_price (draws : nat → Qc) (st : State) :
  Forall priceOk (watchlist st) →
  Forall2 drifted (watchlist st) (watchlist (tick draws st)) ∧
  cash (tick draws st) = cash st ∧
  holdings (tick draws st) = holdings st ∧
  history (tick draws st) = history st ∧
  settings (tick draws st) = settings st.
Proof.
  intros Hwl. split; [|done]. cbn [tick watchlist with_watchlist].
  apply Forall2_same_length_lookup. split; [by rewrite length_imap|].
  intros i w w' Hw Hw'.
  rewrite list_lookup_imap, Hw in Hw'. injection Hw' as <-.
  rewrite Forall_forall in Hwl.
  destruct (Hwl w) as (p & Hp & Hp1); [by eapply list_elem_of_lookup_2|].
  split; [done|]. cbn [price]. rewrite Hp.
  eexists p, _. split; [done|]. split; [apply driftPrice_Fin|].
  split; [by apply qclamp_within | by apply qclamp_ge_one].
Qed.

Lemma tick_drifts_every_price_witness :
  Forall2 drifted (watchlist (initialState sampleSeed))
    (watchlist (tick sampleSeed (initialState sampleSeed))) ∧
  cash (tick sampleSeed (initialState sampleSeed)) = cash (initialState sampleSeed) ∧
  holdings (tick sampleSeed (initialState sampleSeed)) = holdings (initialState sampleSeed) ∧
  history (tick sampleSeed (initialState sampleSeed)) = history (initialState sampleSeed) ∧
  settings (tick sampleSeed (initialState sampleSeed)) = settings (initialState sampleSeed).
Proof.
  apply tick_drifts_every_price.
  apply (inv_prices _ (initialState_Inv sampleSeed ltac:(intros i; split; by_eval))).
Defined.

(** ** Adding and removing a symbol *)

Lemma filter_symbol_id (wl : list WatchItem) (s : string) :
  s ∉ (symbol <$> wl) → filter (λ w, symbol w ≠ s) wl = wl.
Proof.
  induction wl as [|w wl IH]; intros Hnot; [done|].
  cbn in Hnot. apply not_elem_of_cons in Hnot as [Hne Hnot].
  rewrite filter_cons_True by done. by rewrite IH.
Qed.

Lemma with_watchlist_id (st : State) : with_watchlist st (watchlist st) = st.
Proof. by destruct st. Qed.

(** Adding a symbol (an ASCII text) that is not on the watchlist puts it in
    front, under its trimmed upper-case name and with a price between 100
    and 300; the name is no inherited name, and the symbol can be traded at
    that price at once; removing it again gives back the state as it was. *)
Theorem add_then_remove_symbol (addSym : string) (r : Qc) (st : State) :
  let s := toUpperCase (trim addSym) in
  isAscii addSym = true →
  s ≠ ""%string → s ∉ (symbol <$> watchlist st) → isDraw r →
  watchlist (addSymbolToWatch addSym r st) =
    {| symbol := s; price := seedPrice r |} :: watchlist st ∧
  (∃ x, seedPrice r = Fin x ∧ Qc_of_Z 100 ≤ x ≤ Qc_of_Z 300) ∧
  inheritedName s = false ∧
  lastPrice (priceMapFrom (watchlist (addSymbolToWatch addSym r st))) s = seedPrice r ∧
  removeSymbol s (addSymbolToWatch addSym r st) = st.
Proof.
  intros s _ Hblank Hnew [Hr0 Hr1].
  assert (addSymbolToWatch addSym r st =
            with_watchlist st ({| symbol := s; price := seedPrice r |} :: watchlist st))
    as ->.
  { unfold addSymbolToWatch. fold s. rewrite decide_False by done.
    destruct (existsb _ _) eqn:Hex; [|done].
    apply existsb_exists in Hex as (w & Hin & Hw).
    apply bool_decide_eq_true in Hw. exfalso. apply Hnew. rewrite <- Hw.
    by apply list_elem_of_fmap_2, list_elem_of_In. }
  split; [done|]. split.
  { unfold seedPrice, int. cbn. eexists. split; [done|]. split; qc_lra. }
  split; [apply toUpperCase_not_inherited|].
  split.
  - cbn [watchlist with_watchlist]. unfold lastPrice.
    rewrite priceMapFrom_last, filter_cons_True by done.
    rewrite last_cons.
    destruct (last (filter _ (watchlist st))) as [w|] eqn:Hlast; [|done].
    exfalso. apply Hnew.
    apply last_Some_elem_of, list_elem_of_filter in Hlast as [<- Hin].
    by apply list_elem_of_fmap_2.
  - unfold removeSymbol. cbn [watchlist with_watchlist].
    rewrite filter_cons_False by (cbn; tauto).
    rewrite filter_symbol_id by done.
    by destruct st.
Qed.

Lemma add_then_remove_symbol_witness :
  watchlist (addSymbolToWatch " ibm" (dec 1 4) (initialState sampleSeed)) =
    {| symbol := toUpperCase (trim " ibm"); price := seedPrice (dec 1 4) |}
      :: watchlist (initialState sampleSeed) ∧
  (∃ x, seedPrice (dec 1 4) = Fin x ∧ Qc_of_Z 100 ≤ x ≤ Qc_of_Z 300) ∧
  inheritedName (toUpperCase (trim " ibm")) = false ∧
  lastPrice (priceMapFrom (watchlist (addSymbolToWatch " ibm" (dec 1 4)
                                        (initialState sampleSeed))))
    (toUpperCase (trim " ibm")) = seedPrice (dec 1 4) ∧
  removeSymbol (toUpperCase (trim " ibm"))
    (addSymbolToWatch " ibm" (dec 1 4) (initialState sampleSeed)) =
    initialState sampleSeed.
Proof.
  apply (add_then_remove_symbol " ibm" (dec 1 4) (initialState sampleSeed)).
  - reflexivity.
  - vm_compute. discriminate.
  - by_eval.
  - split; by_eval.
Defined.

(** ** Reading a quantity back from its decimal digits *)

Lemma digit_val_pretty (d : N) :
  (d < 10)%N → digit_val (pretty_N_char d) = Some (Z.of_N d).
Proof.
  intros Hd.
  assert (d = 0 ∨ d = 1 ∨ d = 2 ∨ d = 3 ∨ d = 4 ∨ d = 5 ∨ d = 6 ∨ d = 7
          ∨ d = 8 ∨ d = 9)%N as Hcases by lia.
  by repeat destruct Hcases as [->|Hcases]; try subst d.
Qed.

(** Reading the digits [pretty_N_go] writes in front of [s]. *)
Lemma digits_prefix_pretty_go (x : N) :
  (0 < x)%N →
  ∃ k : Z, ∀ acc s,
    digits_prefix (pretty_N_go x s) acc =
      digits_prefix s (Some (k * default 0%Z acc + Z.of_N x)%Z).
Proof.
  induction (N.lt_wf_0 x) as [x _ IH]. intros Hx.
  assert (x `mod` 10 < 10)%N as Hmod by (by apply N.mod_lt).
  assert (Z.of_N x = 10 * Z.of_N (x `div` 10) + Z.of_N (x `mod` 10))%Z as Hdiv.
  { rewrite <- (N2Z.inj_mul 10), <- N2Z.inj_add. f_equal. by apply N.div_mod. }
  destruct (decide (x `div` 10 = 0)%N) as [Hz|Hnz].
  - exists 10%Z. intros acc s.
    rewrite pretty_N_go_step, Hz, pretty_N_go_0 by done.
    cbn [digits_prefix]. rewrite digit_val_pretty by done.
    rewrite Hz in Hdiv. do 2 f_equal.
    generalize (default 0%Z acc) as a. intros a. lia.
  - destruct (IH (x `div` 10)%N) as [k Hk];
      [by apply N.div_lt | by apply N.neq_0_lt_0 |].
    exists (10 * k)%Z. intros acc s.
    rewrite pretty_N_go_step, Hk by done.
    cbn [digits_prefix]. rewrite digit_val_pretty by done.
    cbn [default]. unfold id. do 2 f_equal. rewrite Hdiv. ring.
Qed.

(** The decimal digits of a positive number start with a digit. *)
Lemma pretty_go_first_digit (x : N) (s : string) :
  (0 < x)%N → ∃ d rest, (d < 10)%N ∧ pretty_N_go x s = String (pretty_N_char d) rest.
Proof.
  revert s. induction (N.lt_wf_0 x) as [x _ IH]. intros s Hx.
  assert (x `mod` 10 < 10)%N as Hmod by (by apply N.mod_lt).
  rewrite pretty_N_go_step by done.
  destruct (decide (x `div` 10 = 0)%N) as [Hz|Hnz].
  - rewrite Hz, pretty_N_go_0. eauto.
  - apply IH; [by apply N.div_lt | by apply N.neq_0_lt_0].
Qed.

(** [parseInt] on a text that starts with a digit reads its digits. *)
Lemma parseInt10_digit_first (d : N) (rest : string) :
  (d < 10)%N →
  parseInt10 (String (pretty_N_char d) rest) =
    match digits_prefix (String (pretty_N_char d) rest) None with
    | Some v => int (1 * v)
    | None => NaN
    end.
Proof.
  intros Hd.
  assert (d = 0 ∨ d = 1 ∨ d = 2 ∨ d = 3 ∨ d = 4 ∨ d = 5 ∨ d = 6 ∨ d = 7
          ∨ d = 8 ∨ d = 9)%N as Hcases by lia.
  by repeat destruct Hcases as [->|Hcases]; try subst d.
Qed.

Lemma pretty_N_go_app (x : N) (s t : string) :
  pretty_N_go x s +:+ t = pretty_N_go x (s +:+ t).
Proof.
  revert s. induction (N.lt_wf_0 x) as [x _ IH]. intros s.
  destruct (decide (0 < x)%N) as [Hx|Hx].
  - rewrite (pretty_N_go_step x s), (pretty_N_go_step x (s +:+ t)) by done.
    rewrite IH; [reflexivity|]. by apply N.div_lt.
  - assert (x = 0%N) as -> by lia. by rewrite !pretty_N_go_0.
Qed.

Lemma digits_prefix_stop (rest : string) (acc : option Z) :
  startsWithDigit rest = false → digits_prefix rest acc = acc.
Proof.
  destruct rest as [|c rest]; [done|]. cbn.
  intros Hc%bool_decide_eq_false. destruct (digit_val c); [|done].
  exfalso. by apply Hc.
Qed.

Lemma parseInt10_pretty (n : N) (rest : string) :
  startsWithDigit rest = false →
  parseInt10 (pretty n +:+ rest) = int (Z.of_N n).
Proof.
  intros Hrest. unfold pretty, pretty_N. case_decide as Hn.
  - subst n. change ("0" +:+ rest)%string with (String (pretty_N_char 0) rest).
    rewrite parseInt10_digit_first by done. cbn.
    by rewrite digits_prefix_stop.
  - assert (0 < n)%N as Hpos by lia.
    rewrite pretty_N_go_app. change ("" +:+ rest)%string with rest.
    destruct (pretty_go_first_digit n rest Hpos) as (d & tl & Hd & Hfirst).
    rewrite Hfirst, parseInt10_digit_first by done. rewrite <- Hfirst.
    destruct (digits_prefix_pretty_go n Hpos) as [k Hk].
    rewrite Hk, digits_prefix_stop by done. cbn. f_equal. lia.
Qed.

(** Typing the decimal digits of a number [n] up to 2^53 into the quantity
    field, followed by nothing or by any text that does not start with a
    digit, makes [doTrade] trade exactly [n] shares, and 1 share when [n] is
    0: the field [12abc] trades 12 shares and the field [2.7] trades 2. *)
Theorem tradeQty_of_decimal_digits (n : N) (rest : string) :
  (n ≤ 2 ^ 53)%N →
  startsWithDigit rest = false →
  tradeQty (pretty n +:+ rest) = int (Z.max 1 (Z.of_N n)).
Proof.
  intros _ Hrest. unfold tradeQty.
  assert (pretty n +:+ rest ≠ ""%string) as Hne.
  { unfold pretty, pretty_N. case_decide; [done|].
    rewrite pretty_N_go_app.
    destruct (pretty_go_first_digit n ("" +:+ rest)) as (d & tl & _ & ->); [lia | done]. }
  rewrite decide_False by done.
  by rewrite parseInt10_pretty, Math_floor_int, Math_max_int.
Qed.

Lemma tradeQty_of_decimal_digits_witness :
  tradeQty (pretty 12%N +:+ "abc") = int (Z.max 1 (Z.of_N 12)) ∧
  tradeQty (pretty 2%N +:+ ".7") = int (Z.max 1 (Z.of_N 2)).
Proof.
  split.
  - apply (tradeQty_of_decimal_digits 12 "abc"); [by vm_compute | done].
  - apply (tradeQty_of_decimal_digits 2 ".7"); [by vm_compute | done].
Defined.

(** ** More on loading the saved state *)

Lemma initialStateObj_keys (seed : nat → Qc) (k : string) :
  k ∉ stateKeys → initialStateObj seed !! k = None.
Proof.
  intros Hk. unfold initialStateObj. by apply not_elem_of_list_to_map_1.
Qed.

(** A saved text that parses to [null], to a boolean or to a number has no
    property to spread: nothing throws and the defaults are loaded. *)
Theorem loadState_primitive_blob (JSON_parse : string → option json)
    (seed : nat → Qc) (raw : string) (parsed : json) :
  JSON_parse raw = Some parsed →
  isPrimitive parsed = true →
  loadState JSON_parse seed (Resolved (Some raw)) = initialStateObj seed.
Proof.
  intros Hparsed Hprim. unfold loadState. case_decide; [done|].
  rewrite Hparsed. unfold spread.
  assert (ownProps parsed = ∅) as -> by (by destruct parsed).
  by rewrite (left_id_L ∅ (∪)).
Qed.

Lemma loadState_primitive_blob_witness :
  loadState (λ _, Some JNull) sampleSeed (Resolved (Some "null"%string)) =
    initialStateObj sampleSeed.
Proof. by apply (loadState_primitive_blob (λ _, Some JNull) sampleSeed "null" JNull). Defined.

(** A saved state that has all five top-level keys is loaded exactly as it
    was parsed: no default shows through, and keys beyond the five are
    kept. *)
Theorem loadState_complete_blob (JSON_parse : string → option json)
    (seed : nat → Qc) (raw : string) (parsed : json) :
  raw ≠ ""%string →
  JSON_parse raw = Some parsed →
  Forall (λ k, is_Some (ownProps parsed !! k)) stateKeys →
  loadState JSON_parse seed (Resolved (Some raw)) = ownProps parsed.
Proof.
  intros Hne Hparsed Hkeys. unfold loadState.
  rewrite decide_False, Hparsed by done.
  apply map_eq. intros k. rewrite spread_lookup.
  destruct (ownProps parsed !! k) as [v|] eqn:Hk; [done|].
  apply initialStateObj_keys. intros Hin.
  rewrite Forall_forall in Hkeys. destruct (Hkeys k Hin) as [v Hv]. congruence.
Qed.

Lemma loadState_complete_blob_witness :
  loadState (λ _, Some sampleSaved) sampleSeed (Resolved (Some "saved"%string)) =
    ownProps sampleSaved.
Proof.
  apply (loadState_complete_blob (λ _, Some sampleSaved) sampleSeed "saved" sampleSaved).
  - done.
  - done.
  - repeat constructor; by eexists.
Defined.

(** ** After a trade with a quantity that is not a number *)

Lemma applyOp_cash_NaN (seed : nat → Qc) (st : State) (op : Op) :
  isReset op = false → cash st = NaN → cash (applyOp seed st op) = NaN.
Proof.
  intros Hop Hcash. destruct op as [side sym q env|draws|a r|sym|[|]]; cbn [applyOp];
    try done.
  - unfold doTrade. case_match; [|done].
    unfold tradeReducer. rewrite Hcash.
    destruct side; repeat case_match; cbn; done.
  - unfold addSymbolToWatch. by repeat case_match.
Qed.

(** Once the cash is [NaN] it stays [NaN] through every operation but a
    confirmed reset, and no buy is rejected for lack of cash any more: a buy
    on a priced symbol is always carried out. *)
Theorem nan_cash_is_permanent (seed : nat → Qc) (ops : list Op) (st : State) :
  cash st = NaN →
  forallb (λ op, negb (isReset op)) ops = true →
  cash (foldl (applyOp seed) st ops) = NaN ∧
  ∀ sym qtyText env,
    truthy (lastPrice (priceMapFrom (watchlist st)) sym) = true →
    ∃ st', doTrade BUY sym qtyText env st = (st', []) ∧
           length (history st') = S (length (history st)).
Proof.
  intros Hcash Hops. split.
  - revert st Hcash. induction ops as [|op ops IH]; intros st Hcash; [done|].
    cbn in Hops. apply andb_true_iff in Hops as [Hop Hops].
    apply negb_true_iff in Hop.
    cbn [foldl]. apply IH; [done|]. by apply applyOp_cash_NaN.
  - intros sym qtyText env Hp. unfold doTrade. rewrite Hp.
    unfold tradeReducer. rewrite Hcash.
    assert (∀ n, ngt n NaN = false) as -> by (by intros []).
    by eexists.
Qed.

Lemma nan_cash_is_permanent_witness :
  cash (foldl (applyOp sampleSeed) sampleNaN
          [OpTrade SELL "AAPL" "1" sampleEnv2; OpTick sampleSeed]) = NaN ∧
  ∀ sym qtyText env,
    truthy (lastPrice (priceMapFrom (watchlist sampleNaN)) sym) = true →
    ∃ st', doTrade BUY sym qtyText env sampleNaN = (st', []) ∧
           length (history st') = S (length (history sampleNaN)).
Proof. by apply (nan_cash_is_permanent sampleSeed). Defined.

(** ** More witnesses *)

Lemma watchlist_unique_upper_case_witness :
  NoDup (symbol <$> watchlist (run sampleSeed [OpAddSymbol "ibm" (dec 1 4)])) ∧
  Forall symbolOk (symbol <$> watchlist (run sampleSeed [OpAddSymbol "ibm" (dec 1 4)])) ∧
  priceMapFrom (watchlist (run sampleSeed [OpAddSymbol "ibm" (dec 1 4)])) !! "IBM"%string =
    Some (seedPrice (dec 1 4)).
Proof.
  destruct (watchlist_unique_upper_case sampleSeed [OpAddSymbol "ibm" (dec 1 4)])
    as (Hnd & Hok & Hprice).
  split; [done|]. split; [done|].
  apply (Hprice {| symbol := "IBM"; price := seedPrice (dec 1 4) |}). by left.
Defined.

Lemma tickIntervalMs_truthy_witness :
  truthy (tickIntervalMs sampleNoRefresh) = true ∧
  tickIntervalMs sampleNoRefresh = int 8000.
Proof.
  destruct (tickIntervalMs_truthy sampleNoRefresh) as [Ht Hfallback].
  split; [done|]. apply Hfallback. by_eval.
Defined.
